(** * rper: recursive permission changer

    A shallow embedding of the two C sources of the repository,
    [rper_0.2.c] (module [V02]) and the earlier version 0.1 (module [V01]),
    together with the properties of the permission engine, the symlink
    policy, the option handling and the run summary.

    Conventions of the embedding.
    - [mode_t] is the 32-bit unsigned integer of Linux: a [Z] reduced by
      [u32] after every operation that can leave the range.
    - [int] is the 32-bit signed integer: a [Z] reduced by [s32].
    - a [char] is an [ascii]; its integer value [char_val] is that of a
      signed char (the characters the program tests and stores are below
      128, where signed and unsigned char agree).
    - a C string is a [string]: the characters before the terminator.
    - the C globals are the fields of a [state] record that every function
      takes and returns; the record also carries the file system [fs] and
      the list [trace] of what the program did to the outside world (one
      event per [printf], [fprintf] and [chmod] call, oldest first). *)

From Stdlib Require Import ZArith List String Ascii Bool Lia.
From Stdlib Require DecimalString.
Import ListNotations.

Local Open Scope string_scope.
Local Open Scope list_scope.
Local Open Scope Z_scope.

(** ** Machine integers and characters *)

Definition u32 (x : Z) : Z := x mod 2 ^ 32.

Definition s32 (x : Z) : Z := (x + 2 ^ 31) mod 2 ^ 32 - 2 ^ 31.


(** [x++] on an [int]. *)
Definition int_incr (x : Z) : Z := s32 (x + 1).

(** Value of a [char] once promoted to [int] (signed char). *)
Definition char_val (c : ascii) : Z :=
  let n := Z.of_nat (nat_of_ascii c) in
  if n <? 128 then n else n - 256.

Definition star : ascii := "*"%char.
Definition NUL : ascii := zero.

(** ['0'] as an [int]. *)
Definition char_0 : Z := 48.

(** Element [i] of a [char] array. *)
Definition char_at (a : list ascii) (i : nat) : ascii := nth i a NUL.

(** ** Text output *)

Definition nl : string := String (ascii_of_nat 10) EmptyString.

Definition octal_digit (d : Z) : ascii := ascii_of_nat (48 + Z.to_nat d).

Fixpoint octal_digits (fuel : nat) (n : Z) (acc : string) : string :=
  match fuel with
  | O => acc
  | S fuel' =>
      let acc' := String (octal_digit (n mod 8)) acc in
      if n / 8 =? 0 then acc' else octal_digits fuel' (n / 8) acc'
  end.

(** [printf("%o", n)] for an unsigned 32-bit [n]: at most eleven digits. *)
Definition format_o (n : Z) : string := octal_digits 11 (u32 n) "".

(** [printf("%d", n)] for an [int]. *)
Definition format_d (n : Z) : string :=
  DecimalString.NilZero.string_of_int (Z.to_int n).

(** [printf("%c", c)]. *)
Definition format_c (c : ascii) : string := String c EmptyString.

(** ** The C library on strings *)

Definition char_in (accept : string) (c : ascii) : bool :=
  existsb (Ascii.eqb c) (list_ascii_of_string accept).

(** [strspn(s, accept)]: length of the longest prefix of [s] made of
    characters of [accept]. *)
Fixpoint strspn (s accept : string) : nat :=
  match s with
  | EmptyString => 0
  | String c s' => if char_in accept c then S (strspn s' accept) else 0
  end.

(** [strncpy(dest, src, n)] on a destination array: [n] characters are
    written, those of [src] followed by NUL padding when [src] is shorter;
    the rest of the array is left as it was. *)
Fixpoint strncpy_chars (src : string) (n : nat) : list ascii :=
  match n with
  | O => []
  | S n' =>
      match src with
      | EmptyString => NUL :: strncpy_chars EmptyString n'
      | String c src' => c :: strncpy_chars src' n'
      end
  end.

Definition strncpy (dest : list ascii) (src : string) (n : nat) : list ascii :=
  strncpy_chars src n ++ skipn n dest.

(** [optarg++]: the string from its second character on. *)
Definition str_tail (s : string) : string :=
  match s with
  | EmptyString => EmptyString
  | String _ s' => s'
  end.

(** [snprintf(buf, size, ...)]: the text cut to [size - 1] characters. *)
Definition snprintf (size : nat) (text : string) : string :=
  substring 0 (size - 1) text.

(** ** The operating system

    The calls the program makes on the file system, as an interface: each
    returns its result or the [errno] of its failure.  [lstat] and [stat]
    return the [st_mode] field, the only one the program reads; [opendir]
    returns the entries that the [readdir] loop will see, in their
    order. *)

Inductive sysres (A : Type) : Type :=
  | Ok (a : A)
  | Fail (errno : Z).
Arguments Ok {A} a.
Arguments Fail {A} errno.

Inductive d_type_t : Type :=
  | DT_UNKNOWN | DT_FIFO | DT_CHR | DT_DIR | DT_BLK
  | DT_REG | DT_LNK | DT_SOCK | DT_WHT.

Definition is_DT_DIR (t : d_type_t) : bool :=
  match t with DT_DIR => true | _ => false end.

Record dirent : Type := mkDirent {
  d_name : string;
  d_type : d_type_t
}.

Record posix (world : Type) : Type := mkPosix {
  lstat : world -> string -> sysres Z;
  stat : world -> string -> sysres Z;
  chmod : world -> string -> Z -> sysres world;
  opendir : world -> string -> sysres (list dirent);
  strerror : Z -> string
}.
Arguments lstat {world} _ _ _.
Arguments stat {world} _ _ _.
Arguments chmod {world} _ _ _ _.
Arguments opendir {world} _ _ _.
Arguments strerror {world} _ _.

(** File type tests of [<sys/stat.h>], with the Linux constants. *)
Definition S_IFMT : Z := 61440.   (* 0170000 *)
Definition S_IFLNK : Z := 40960.  (* 0120000 *)
Definition S_IFREG : Z := 32768.  (* 0100000 *)
Definition S_IFDIR : Z := 16384.  (* 0040000 *)

Definition S_ISLNK (m : Z) : bool := Z.land m S_IFMT =? S_IFLNK.
Definition S_ISREG (m : Z) : bool := Z.land m S_IFMT =? S_IFREG.
Definition S_ISDIR (m : Z) : bool := Z.land m S_IFMT =? S_IFDIR.

Definition EXIT_SUCCESS : Z := 0.
Definition EXIT_FAILURE : Z := 1.

(** What the program does to the outside, one event per call. *)
Inductive event : Type :=
  | Stdout (text : string)
  | Stderr (text : string)
  | Chmod (path : string) (mode : Z) (succeeded : bool).

(** ** Version 0.2 ([rper_0.2.c]) *)

Module V02.

(** *** [apply_wildcard_mode] *)

(** One turn of the [for] loop of [apply_wildcard_mode] (lines 161-164),
    for the loop index [i]. *)
Definition apply_wildcard_step (wildcard_mode : list ascii)
    (new_mode : Z) (i : nat) : Z :=
  let sh := 6 - 3 * Z.of_nat i in
  if Ascii.eqb (char_at wildcard_mode i) star then new_mode
  else
    let cleared := Z.land new_mode (u32 (Z.lnot (u32 (Z.shiftl (u32 7) sh)))) in
    Z.lor cleared
      (u32 (Z.shiftl (u32 (u32 (char_val (char_at wildcard_mode i)) - char_0)) sh)).

(** [mode_t apply_wildcard_mode(mode_t old_mode)]; the global
    [wildcard_mode] it reads is the first argument. *)
Definition apply_wildcard_mode (wildcard_mode : list ascii) (old_mode : Z) : Z :=
  fold_left (apply_wildcard_step wildcard_mode) [0%nat; 1%nat; 2%nat]
    (Z.land old_mode 511).

(** *** Globals and state *)

Definition version : string := "0.2".

Inductive output_mode_t : Type :=
  | OUTPUT_NORMAL | OUTPUT_QUIET | OUTPUT_SILENT | OUTPUT_VERBOSE.

Inductive symlink_mode_t : Type :=
  | SYMLINK_SKIP | SYMLINK_FOLLOW | SYMLINK_ERROR.

Definition is_normal (o : output_mode_t) : bool :=
  match o with OUTPUT_NORMAL => true | _ => false end.
Definition is_quiet (o : output_mode_t) : bool :=
  match o with OUTPUT_QUIET => true | _ => false end.
Definition is_silent (o : output_mode_t) : bool :=
  match o with OUTPUT_SILENT => true | _ => false end.
Definition is_verbose (o : output_mode_t) : bool :=
  match o with OUTPUT_VERBOSE => true | _ => false end.

Section Program.

Context {world : Type} (OS : posix world).

(** The globals of lines 80-109, the file system and the trace. *)
Record state : Type := mkState {
  files_changed : Z;
  dirs_changed : Z;
  symlinks_skipped : Z;
  symlinks_followed : Z;
  symlink_errors : Z;
  wildcard_mode : list ascii;
  output_mode : output_mode_t;
  symlink_mode : symlink_mode_t;
  fs : world;
  trace : list event
}.

(** The globals as the C initialisers leave them, on a file system. *)
Definition initial_state (w : world) : state :=
  mkState 0 0 0 0 0 [NUL; NUL; NUL; NUL] OUTPUT_NORMAL SYMLINK_SKIP w [].

Definition emit (e : event) (st : state) : state :=
  mkState (files_changed st) (dirs_changed st) (symlinks_skipped st)
    (symlinks_followed st) (symlink_errors st) (wildcard_mode st)
    (output_mode st) (symlink_mode st) (fs st) (trace st ++ [e]).

Definition printf (text : string) (st : state) : state := emit (Stdout text) st.

(** [fprintf(stderr, ...)]. *)
Definition eprintf (text : string) (st : state) : state := emit (Stderr text) st.

Definition when (b : bool) (f : state -> state) (st : state) : state :=
  if b then f st else st.

Definition incr_files_changed (st : state) : state :=
  mkState (int_incr (files_changed st)) (dirs_changed st) (symlinks_skipped st)
    (symlinks_followed st) (symlink_errors st) (wildcard_mode st)
    (output_mode st) (symlink_mode st) (fs st) (trace st).

Definition incr_dirs_changed (st : state) : state :=
  mkState (files_changed st) (int_incr (dirs_changed st)) (symlinks_skipped st)
    (symlinks_followed st) (symlink_errors st) (wildcard_mode st)
    (output_mode st) (symlink_mode st) (fs st) (trace st).

Definition incr_symlinks_skipped (st : state) : state :=
  mkState (files_changed st) (dirs_changed st) (int_incr (symlinks_skipped st))
    (symlinks_followed st) (symlink_errors st) (wildcard_mode st)
    (output_mode st) (symlink_mode st) (fs st) (trace st).

Definition incr_symlinks_followed (st : state) : state :=
  mkState (files_changed st) (dirs_changed st) (symlinks_skipped st)
    (int_incr (symlinks_followed st)) (symlink_errors st) (wildcard_mode st)
    (output_mode st) (symlink_mode st) (fs st) (trace st).

Definition incr_symlink_errors (st : state) : state :=
  mkState (files_changed st) (dirs_changed st) (symlinks_skipped st)
    (symlinks_followed st) (int_incr (symlink_errors st)) (wildcard_mode st)
    (output_mode st) (symlink_mode st) (fs st) (trace st).

Definition set_wildcard_mode (w : list ascii) (st : state) : state :=
  mkState (files_changed st) (dirs_changed st) (symlinks_skipped st)
    (symlinks_followed st) (symlink_errors st) w
    (output_mode st) (symlink_mode st) (fs st) (trace st).

Definition set_output_mode (o : output_mode_t) (st : state) : state :=
  mkState (files_changed st) (dirs_changed st) (symlinks_skipped st)
    (symlinks_followed st) (symlink_errors st) (wildcard_mode st)
    o (symlink_mode st) (fs st) (trace st).

Definition set_symlink_mode (m : symlink_mode_t) (st : state) : state :=
  mkState (files_changed st) (dirs_changed st) (symlinks_skipped st)
    (symlinks_followed st) (symlink_errors st) (wildcard_mode st)
    (output_mode st) m (fs st) (trace st).

Definition set_fs (w : world) (st : state) : state :=
  mkState (files_changed st) (dirs_changed st) (symlinks_skipped st)
    (symlinks_followed st) (symlink_errors st) (wildcard_mode st)
    (output_mode st) (symlink_mode st) w (trace st).

(** *** Printing *)

Definition usage_lines : list string :=
  [ "|============== RPER USAGE =================|" ++ nl;
    "  rper [-f] [-d] [-i] [-n] [-s | -S] [-L | -k] [-p mode] <directory>" ++ nl;
    "    -f : Search files only (default function if no flags are provided)" ++ nl;
    "    -d : Search directories only (can be used with -f flag)" ++ nl;
    "    -i : Include the given directory in the changes (with -d flag only)" ++ nl;
    "    -n : Do not apply changes recursively (changes only affect specified directory)" ++ nl;
    "    -s : Suppress normal output, only show errors" ++ nl;
    "    -S : Suppress all output, including errors" ++ nl;
    "    -L : Follow symlinks and modify their targets" ++ nl;
    "    -k : Stop on symlink encounter and report error" ++ nl;
    "    -p : Specify permissions in octal format (e.g., 755, 0644)" ++ nl;
    "    -h, -H: Display this help message" ++ nl;
    "    -a: Learn about rper" ++ nl ]%string.

Definition print_lines (lines : list string) (st : state) : state :=
  fold_left (fun s l => printf l s) lines st.

Definition print_usage (st : state) : state := print_lines usage_lines st.

Definition about_lines : list string :=
  [ "|============== ABOUT RPER =================|" ++ nl;
    "  rper (pronounced: 'arr per')" ++ nl;
    "  'recursive permissions'" ++ nl;
    "  Version: " ++ version ++ nl ++ nl;
    "  Author: Dale Hitchenor" ++ nl;
    "  Source: https://github.com/dhitchenor/rper" ++ nl ]%string.

Definition print_about (st : state) : state := print_lines about_lines st.

Definition print_permissions (mode : Z) (st : state) : state :=
  printf (format_o (Z.land mode 511)) st.

(** One [printf] per slot; both branches of the test print the character
    of the slot. *)
Definition print_wildcard_mode (st : state) : state :=
  fold_left
    (fun s i =>
       if Ascii.eqb (char_at (wildcard_mode s) i) star then printf "*" s
       else printf (format_c (char_at (wildcard_mode s) i)) s)
    [0%nat; 1%nat; 2%nat] st.

(** The line that reports a change (lines 253-259 and 271-277); [tag] is
    ["(D "] or ["(F "]. *)
Definition print_change (tag path : string) (old_mode new_mode : Z)
    (st : state) : state :=
  let st := printf tag st in
  let st := print_permissions old_mode st in
  let st := printf " -> [" st in
  let st := print_wildcard_mode st in
  let st := printf "] " st in
  let st := print_permissions new_mode st in
  printf (") " ++ path ++ nl)%string st.

(** *** [change_permissions] *)

(** The call [chmod(path, new_mode)]: [None] when it returns 0, the
    [errno] otherwise.  The attempt is recorded in the trace; a success
    replaces the file system. *)
Definition do_chmod (path : string) (new_mode : Z) (st : state)
    : option Z * state :=
  match chmod OS (fs st) path new_mode with
  | Ok w' => (None, emit (Chmod path new_mode true) (set_fs w' st))
  | Fail e => (Some e, emit (Chmod path new_mode false) st)
  end.

(** Lines 230-284: the part of [change_permissions] that follows the
    symlink switch, on the [st_mode] then held by [statbuf]. *)
Definition change_mode (path : string) (st_mode : Z)
    (change_files change_dirs : bool) (st : state) : state :=
  let old_mode := Z.land st_mode 511 in
  let new_mode := apply_wildcard_mode (wildcard_mode st) old_mode in
  if old_mode =? new_mode then
    if negb (is_quiet (output_mode st)) && negb (is_silent (output_mode st))
    then
      if S_ISDIR st_mode then
        when (change_dirs || is_verbose (output_mode st))
          (printf ("(D -> S) " ++ path ++ nl)%string) st
      else if S_ISREG st_mode then
        when (change_files || is_verbose (output_mode st))
          (printf ("(F -> S) " ++ path ++ nl)%string) st
      else st
    else st
  else if S_ISDIR st_mode && change_dirs then
    match do_chmod path new_mode st with
    | (None, st) =>
        let st := incr_dirs_changed st in
        when (negb (is_quiet (output_mode st))
              && negb (is_silent (output_mode st)))
          (print_change "(D " path old_mode new_mode) st
    | (Some e, st) =>
        when (negb (is_silent (output_mode st)))
          (eprintf ("Error: Cannot change directory permissions " ++ path
                    ++ ": " ++ strerror OS e ++ nl)%string) st
    end
  else if S_ISREG st_mode && change_files then
    match do_chmod path new_mode st with
    | (None, st) =>
        let st := incr_files_changed st in
        when (negb (is_quiet (output_mode st))
              && negb (is_silent (output_mode st)))
          (print_change "(F " path old_mode new_mode) st
    | (Some e, st) =>
        when (negb (is_silent (output_mode st)))
          (eprintf ("Error: Cannot change file permissions " ++ path
                    ++ ": " ++ strerror OS e ++ nl)%string) st
    end
  else st.

(** [void change_permissions(path, change_files, change_dirs,
    symlink_mode)], lines 188-285.  The parameter [symlink_mode] hides the
    global of the same name. *)
Definition change_permissions (path : string)
    (change_files change_dirs : bool) (symlink_mode : symlink_mode_t)
    (st : state) : state :=
  match lstat OS (fs st) path with
  | Fail e =>
      when (negb (is_silent (output_mode st)))
        (eprintf ("Error: Cannot access(stat) file " ++ path ++ ": "
                  ++ strerror OS e ++ nl)%string) st
  | Ok st_mode =>
      if S_ISLNK st_mode then
        match symlink_mode with
        | SYMLINK_SKIP =>
            let st := incr_symlinks_skipped st in
            when (is_normal (output_mode st) || is_verbose (output_mode st))
              (printf ("(L -> SKIP) " ++ path ++ nl)%string) st
        | SYMLINK_FOLLOW =>
            match stat OS (fs st) path with
            | Fail e =>
                when (negb (is_silent (output_mode st)))
                  (eprintf ("Skipping: Cannot follow symlink " ++ path ++ ": "
                            ++ strerror OS e ++ nl)%string) st
            | Ok target_mode =>
                let st := incr_symlinks_followed st in
                let st :=
                  when (is_verbose (output_mode st))
                    (printf ("(L -> FOLLOW) " ++ path ++ nl)%string) st in
                change_mode path target_mode change_files change_dirs st
            end
        | SYMLINK_ERROR =>
            let st := incr_symlink_errors st in
            when (negb (is_silent (output_mode st)))
              (eprintf ("Error: Symlink found: " ++ path ++ nl)%string) st
        end
      else change_mode path st_mode change_files change_dirs st
  end.

(** *** [process_directory] *)

(** The [while] loop of lines 311-327 on the entries still to be read;
    [descend] is the recursive call of [process_directory] on a path. *)
Fixpoint readdir_loop (descend : string -> state -> option state)
    (dir_path : string) (recursive change_files change_dirs : bool)
    (symlink_mode : symlink_mode_t) (entries : list dirent) (st : state)
    : option state :=
  match entries with
  | [] => Some st
  | entry :: rest =>
      if String.eqb (d_name entry) "." || String.eqb (d_name entry) ".."
      then
        readdir_loop descend dir_path recursive change_files change_dirs
          symlink_mode rest st
      else
        let path :=
          snprintf 1024 (dir_path ++ "/" ++ d_name entry)%string in
        let st :=
          change_permissions path change_files change_dirs symlink_mode st in
        if recursive && is_DT_DIR (d_type entry) then
          match descend path st with
          | Some st =>
              readdir_loop descend dir_path recursive change_files
                change_dirs symlink_mode rest st
          | None => None
          end
        else
          readdir_loop descend dir_path recursive change_files change_dirs
            symlink_mode rest st
  end.

(** [void process_directory(dir_path, recursive, change_files,
    change_dirs, include_dir, symlink_mode)], lines 292-330.  The depth of
    the recursive calls is bounded by [fuel]; [None] when the bound is
    reached. *)
Fixpoint process_directory (fuel : nat) (dir_path : string)
    (recursive change_files change_dirs include_dir : bool)
    (symlink_mode : symlink_mode_t) (st : state) : option state :=
  match fuel with
  | O => None
  | S fuel' =>
      let st :=
        when (change_dirs && include_dir)
          (change_permissions dir_path false true symlink_mode) st in
      match opendir OS (fs st) dir_path with
      | Fail e =>
          Some (when (negb (is_silent (output_mode st)))
                  (eprintf ("Error: Cannot open directory " ++ dir_path
                            ++ ": " ++ strerror OS e ++ nl)%string) st)
      | Ok entries =>
          readdir_loop
            (fun path st' =>
               process_directory fuel' path recursive change_files
                 change_dirs include_dir symlink_mode st')
            dir_path recursive change_files change_dirs symlink_mode
            entries st
      end
  end.

(** *** [validate_and_process_octal] *)

Definition validate_and_process_octal (optarg : string) (st : state)
    : Z * state :=
  let len := String.length optarg in
  let strip :=
    Nat.eqb len 4
    && match String.get 0 optarg with
       | Some c => Ascii.eqb c "0"
       | None => false
       end in
  let optarg := if strip then str_tail optarg else optarg in
  let len := if strip then (len - 1)%nat else len in
  if negb (Nat.eqb len 3) || negb (Nat.eqb (strspn optarg "4567*") 3) then
    let st :=
      eprintf ("Error: Invalid octal value: " ++ optarg
               ++ " (web search: unix octal permissions)" ++ nl ++ nl)%string
        st in
    let st := printf ("type `rper -h` for help" ++ nl ++ nl)%string st in
    (-1, st)
  else
    (0, set_wildcard_mode (strncpy (wildcard_mode st) optarg 3) st).

(** *** [main] *)

(** The local variables of [main] that the option loop sets. *)
Record locals : Type := mkLocals {
  change_files : bool;
  change_dirs : bool;
  recursive : bool;
  include_dir : bool;
  perm_flag : bool
}.

Definition initial_locals : locals := mkLocals false false true false false.

(** The [getopt] loop of lines 369-418.  [opts] is what the successive
    calls of [getopt] return: the option character (['?'] for an option
    that is not in the option string) with its argument, empty when the
    option takes none.  The result is [inl] when [main] returns from inside
    the loop. *)
Fixpoint getopt_loop (opts : list (ascii * string)) (l : locals) (st : state)
    : (Z * state) + (locals * state) :=
  match opts with
  | [] => inr (l, st)
  | (opt, optarg) :: rest =>
      if Ascii.eqb opt "a" then
        inl (EXIT_SUCCESS, print_usage (printf nl (print_about st)))
      else if Ascii.eqb opt "h" || Ascii.eqb opt "H" then
        inl (EXIT_SUCCESS, print_usage st)
      else if Ascii.eqb opt "d" then
        getopt_loop rest
          (mkLocals (change_files l) true (recursive l) (include_dir l)
             (perm_flag l)) st
      else if Ascii.eqb opt "f" then
        getopt_loop rest
          (mkLocals true (change_dirs l) (recursive l) (include_dir l)
             (perm_flag l)) st
      else if Ascii.eqb opt "i" then
        getopt_loop rest
          (mkLocals (change_files l) (change_dirs l) (recursive l) true
             (perm_flag l)) st
      else if Ascii.eqb opt "n" then
        getopt_loop rest
          (mkLocals (change_files l) (change_dirs l) false (include_dir l)
             (perm_flag l)) st
      else if Ascii.eqb opt "s" then
        getopt_loop rest l (set_output_mode OUTPUT_QUIET st)
      else if Ascii.eqb opt "S" then
        getopt_loop rest l (set_output_mode OUTPUT_SILENT st)
      else if Ascii.eqb opt "v" then
        getopt_loop rest l (set_output_mode OUTPUT_VERBOSE st)
      else if Ascii.eqb opt "L" then
        getopt_loop rest l (set_symlink_mode SYMLINK_FOLLOW st)
      else if Ascii.eqb opt "k" then
        getopt_loop rest l (set_symlink_mode SYMLINK_ERROR st)
      else if Ascii.eqb opt "p" then
        match validate_and_process_octal optarg st with
        | (r, st) =>
            if r =? -1 then inl (EXIT_FAILURE, st)
            else
              getopt_loop rest
                (mkLocals (change_files l) (change_dirs l) (recursive l)
                   (include_dir l) true) st
        end
      else
        inl (EXIT_FAILURE,
             print_usage
               (eprintf ("Error: Unknown (please see usage)" ++ nl ++ nl)%string
                  st))
  end.

(** The symlink line of the summary (lines 449-455). *)
Definition summary_symlink_line (st : state) : list string :=
  match symlink_mode st with
  | SYMLINK_SKIP =>
      if symlinks_skipped st >? 0
      then ["Symlinks skipped: " ++ format_d (symlinks_skipped st) ++ nl]%string
      else []
  | SYMLINK_FOLLOW =>
      if symlinks_followed st >? 0
      then ["Symlinks followed: " ++ format_d (symlinks_followed st) ++ nl]%string
      else []
  | SYMLINK_ERROR =>
      if symlink_errors st >? 0
      then ["Symlink errors found: " ++ format_d (symlink_errors st) ++ nl]%string
      else []
  end.

(** The text of the final summary (lines 444-456), one string per
    [printf]. *)
Definition summary_lines (st : state) : list string :=
  if is_silent (output_mode st) then []
  else
    [ "Operation completed." ++ nl;
      "Files changed: " ++ format_d (files_changed st) ++ nl;
      "Directories changed: " ++ format_d (dirs_changed st) ++ nl ]%string
    ++ summary_symlink_line st.

Definition print_summary (st : state) : state :=
  print_lines (summary_lines st) st.

(** [int main(int argc, char *argv[])]: [opts] as in [getopt_loop],
    [operands] the arguments from [argv[optind]] on. *)
Definition main (fuel : nat) (opts : list (ascii * string))
    (operands : list string) (st : state) : option (Z * state) :=
  match getopt_loop opts initial_locals st with
  | inl r => Some r
  | inr (l, st) =>
      match operands with
      | [] =>
          let st :=
            eprintf ("Error: Missing directory argument "
                     ++ "(directory argument should be last)" ++ nl ++ nl)%string
              st in
          Some (EXIT_FAILURE,
                printf ("type `rper -a` for usgae" ++ nl ++ nl)%string st)
      | directory :: _ =>
          if negb (perm_flag l) then
            let st :=
              eprintf ("Error: No permissions detected (use -p)" ++ nl ++ nl)%string
                st in
            Some (EXIT_FAILURE,
                  printf ("type `rper -h` for help" ++ nl ++ nl)%string st)
          else
            let files :=
              if negb (change_files l) && negb (change_dirs l) then true
              else change_files l in
            match process_directory fuel directory (recursive l) files
                    (change_dirs l) (include_dir l) (symlink_mode st) st with
            | Some st => Some (EXIT_SUCCESS, print_summary st)
            | None => None
            end
      end
  end.

End Program.

Arguments state world : clear implicits.

End V02.

(** ** Version 0.1 *)

Module V01.

(** *** [apply_wildcard_mode] *)

(** One turn of the loop in version 0.1 (lines 121-124): the mask and the
    digit are computed as [int] and converted to [mode_t] by the compound
    assignment. *)
Definition apply_wildcard_step (wildcard_mode : list ascii)
    (new_mode : Z) (i : nat) : Z :=
  let sh := 6 - 3 * Z.of_nat i in
  if Ascii.eqb (char_at wildcard_mode i) star then new_mode
  else
    let cleared := Z.land new_mode (u32 (s32 (Z.lnot (s32 (Z.shiftl 7 sh))))) in
    Z.lor cleared
      (u32 (s32 (Z.shiftl (s32 (char_val (char_at wildcard_mode i) - char_0)) sh))).

Definition apply_wildcard_mode (wildcard_mode : list ascii) (old_mode : Z) : Z :=
  fold_left (apply_wildcard_step wildcard_mode) [0%nat; 1%nat; 2%nat]
    (Z.land old_mode 511).

(** *** Globals and state *)

Definition version : string := "0.1".

Section Program.

Context {world : Type} (OS : posix world).

(** The globals of lines 70-76, [errno], the file system and the trace.
    The three output flags are [int]s that only hold 0 or 1. *)
Record state : Type := mkState {
  files_changed : Z;
  dirs_changed : Z;
  suppress_output : bool;
  suppress_all_output : bool;
  verbose : bool;
  wildcard_mode : list ascii;
  errno : Z;
  fs : world;
  trace : list event
}.

Definition initial_state (w : world) : state :=
  mkState 0 0 false false false [NUL; NUL; NUL; NUL] 0 w [].

Definition emit (e : event) (st : state) : state :=
  mkState (files_changed st) (dirs_changed st) (suppress_output st)
    (suppress_all_output st) (verbose st) (wildcard_mode st) (errno st)
    (fs st) (trace st ++ [e]).

Definition printf (text : string) (st : state) : state := emit (Stdout text) st.

Definition eprintf (text : string) (st : state) : state := emit (Stderr text) st.

Definition when (b : bool) (f : state -> state) (st : state) : state :=
  if b then f st else st.

Definition incr_files_changed (st : state) : state :=
  mkState (int_incr (files_changed st)) (dirs_changed st) (suppress_output st)
    (suppress_all_output st) (verbose st) (wildcard_mode st) (errno st)
    (fs st) (trace st).

Definition incr_dirs_changed (st : state) : state :=
  mkState (files_changed st) (int_incr (dirs_changed st)) (suppress_output st)
    (suppress_all_output st) (verbose st) (wildcard_mode st) (errno st)
    (fs st) (trace st).

Definition set_flags (s sall v : bool) (st : state) : state :=
  mkState (files_changed st) (dirs_changed st) s sall v (wildcard_mode st)
    (errno st) (fs st) (trace st).

Definition set_wildcard_mode (w : list ascii) (st : state) : state :=
  mkState (files_changed st) (dirs_changed st) (suppress_output st)
    (suppress_all_output st) (verbose st) w (errno st) (fs st) (trace st).

Definition set_errno (e : Z) (st : state) : state :=
  mkState (files_changed st) (dirs_changed st) (suppress_output st)
    (suppress_all_output st) (verbose st) (wildcard_mode st) e (fs st)
    (trace st).

Definition set_fs (w : world) (st : state) : state :=
  mkState (files_changed st) (dirs_changed st) (suppress_output st)
    (suppress_all_output st) (verbose st) (wildcard_mode st) (errno st) w
    (trace st).

(** [!suppress_output && !suppress_all_output]. *)
Definition not_suppressed (st : state) : bool :=
  negb (suppress_output st) && negb (suppress_all_output st).

(** *** Printing *)

Definition usage_lines : list string :=
  [ "Usage: rper [-f | -d] [-i]  [-n] [-s | -S] [-p mode] [-h | -H] <directory>" ++ nl;
    "  -f : Search files only (default function if no flags are provided)" ++ nl;
    "  -d : Search directories only (can be used with -f flag)" ++ nl;
    "  -i : Include the given directory in the changes (with -d flag only)" ++ nl;
    "  -n : Do not apply changes recursively (changes only affect specified directory)" ++ nl;
    "  -s : Suppress normal output, only show errors" ++ nl;
    "  -S : Suppress all output, including errors" ++ nl;
    "  -p : Specify permissions in octal format (e.g., 755, 0644)" ++ nl;
    "  -h, -H: Display this help message" ++ nl ]%string.

Definition print_lines (lines : list string) (st : state) : state :=
  fold_left (fun s l => printf l s) lines st.

Definition print_usage (st : state) : state := print_lines usage_lines st.

Definition about_lines : list string :=
  [ "rper (pronounced: 'arr per'). version: " ++ version ++ nl;
    "Author: Dale Hitchenor";
    "Source: https://github.com/dhitchenor/rper" ]%string.

Definition print_about (st : state) : state := print_lines about_lines st.

Definition print_permissions (mode : Z) (st : state) : state :=
  printf (format_o (Z.land mode 511)) st.

Definition print_wildcard_mode (st : state) : state :=
  fold_left
    (fun s i =>
       if Ascii.eqb (char_at (wildcard_mode s) i) star then printf "*" s
       else printf (format_c (char_at (wildcard_mode s) i)) s)
    [0%nat; 1%nat; 2%nat] st.

Definition print_change (tag path : string) (old_mode new_mode : Z)
    (st : state) : state :=
  let st := printf tag st in
  let st := print_permissions old_mode st in
  let st := printf " -> [" st in
  let st := print_wildcard_mode st in
  let st := printf "] " st in
  let st := print_permissions new_mode st in
  printf (") " ++ path ++ nl)%string st.

(** *** [change_permissions] *)

(** The call [chmod(path, new_mode)]: [true] when it returns 0.  The
    attempt is recorded in the trace; a success replaces the file system,
    a failure sets [errno]. *)
Definition do_chmod (path : string) (new_mode : Z) (st : state)
    : bool * state :=
  match chmod OS (fs st) path new_mode with
  | Ok w' => (true, emit (Chmod path new_mode true) (set_fs w' st))
  | Fail e => (false, emit (Chmod path new_mode false) (set_errno e st))
  end.

(** [void change_permissions(path, mode, change_files, change_dirs)],
    lines 148-213.  In the directory branch the [else] that reports the
    error belongs to the test on the output flags, inside the success
    branch of [chmod]; in the file branch it belongs to the test on
    [chmod]. *)
Definition change_permissions (path : string) (mode : Z)
    (change_files change_dirs : bool) (st : state) : state :=
  match lstat OS (fs st) path with
  | Fail e =>
      let st := set_errno e st in
      when (not_suppressed st)
        (eprintf ("Error: Cannot access(stat) file " ++ path ++ ": "
                  ++ strerror OS (errno st) ++ nl)%string) st
  | Ok st_mode =>
      let old_mode := Z.land st_mode 511 in
      let new_mode := apply_wildcard_mode (wildcard_mode st) old_mode in
      if old_mode =? new_mode then
        if not_suppressed st then
          if S_ISDIR st_mode then
            when (change_dirs || verbose st)
              (printf ("(D -> S) " ++ path ++ nl)%string) st
          else if S_ISREG st_mode then
            when (change_files || verbose st)
              (printf ("(F -> S) " ++ path ++ nl)%string) st
          else st
        else st
      else if S_ISDIR st_mode && change_dirs then
        match do_chmod path new_mode st with
        | (true, st) =>
            let st := incr_dirs_changed st in
            if not_suppressed st then
              print_change "(D " path old_mode new_mode st
            else
              when (not_suppressed st || verbose st)
                (eprintf ("Error: Cannot change directory permissions "
                          ++ path ++ ": " ++ strerror OS (errno st) ++ nl)%string)
                st
        | (false, st) => st
        end
      else if S_ISREG st_mode && change_files then
        match do_chmod path new_mode st with
        | (true, st) =>
            let st := incr_files_changed st in
            when (not_suppressed st)
              (print_change "(F " path old_mode new_mode) st
        | (false, st) =>
            when (not_suppressed st || verbose st)
              (eprintf ("Error: Cannot change file permissions " ++ path
                        ++ ": " ++ strerror OS (errno st) ++ nl)%string) st
        end
      else st
  end.

(** *** [process_directory] *)

Fixpoint readdir_loop (descend : string -> state -> option state)
    (dir_path : string) (mode : Z) (recursive change_files change_dirs : bool)
    (entries : list dirent) (st : state) : option state :=
  match entries with
  | [] => Some st
  | entry :: rest =>
      if String.eqb (d_name entry) "." || String.eqb (d_name entry) ".."
      then
        readdir_loop descend dir_path mode recursive change_files change_dirs
          rest st
      else
        let path :=
          snprintf 1024 (dir_path ++ "/" ++ d_name entry)%string in
        let st := change_permissions path mode change_files change_dirs st in
        if recursive && is_DT_DIR (d_type entry) then
          match descend path st with
          | Some st =>
              readdir_loop descend dir_path mode recursive change_files
                change_dirs rest st
          | None => None
          end
        else
          readdir_loop descend dir_path mode recursive change_files
            change_dirs rest st
  end.

(** [void process_directory(dir_path, mode, recursive, change_files,
    change_dirs, include_dir)], lines 220-258, with the depth of the
    recursion bounded by [fuel]. *)
Fixpoint process_directory (fuel : nat) (dir_path : string) (mode : Z)
    (recursive change_files change_dirs include_dir : bool) (st : state)
    : option state :=
  match fuel with
  | O => None
  | S fuel' =>
      let st :=
        when (change_dirs && include_dir)
          (change_permissions dir_path mode false true) st in
      match opendir OS (fs st) dir_path with
      | Fail e =>
          let st := set_errno e st in
          Some (when (not_suppressed st)
                  (eprintf ("Error: Cannot open directory " ++ dir_path
                            ++ ": " ++ strerror OS (errno st) ++ nl)%string) st)
      | Ok entries =>
          readdir_loop
            (fun path st' =>
               process_directory fuel' path mode recursive change_files
                 change_dirs include_dir st')
            dir_path mode recursive change_files change_dirs entries st
      end
  end.

(** *** [validate_and_process_octal] *)

Definition validate_and_process_octal (optarg : string) (st : state)
    : Z * state :=
  let len := String.length optarg in
  let strip :=
    Nat.eqb len 4
    && match String.get 0 optarg with
       | Some c => Ascii.eqb c "0"
       | None => false
       end in
  let optarg := if strip then str_tail optarg else optarg in
  let len := if strip then (len - 1)%nat else len in
  if negb (Nat.eqb len 3) || negb (Nat.eqb (strspn optarg "4567*") 3) then
    let st :=
      eprintf ("Error: Invalid octal value: " ++ optarg
               ++ " (google: unix octal permissions)" ++ nl ++ nl)%string st in
    (-1, print_usage st)
  else
    (0, set_wildcard_mode (strncpy (wildcard_mode st) optarg 3) st).

(** *** [main] *)

Record locals : Type := mkLocals {
  change_files : bool;
  change_dirs : bool;
  recursive : bool;
  include_dir : bool;
  perm_flag : bool
}.

Definition initial_locals : locals := mkLocals false false true false false.

(** The [getopt] loop of lines 298-346, as in version 0.2. *)
Fixpoint getopt_loop (opts : list (ascii * string)) (l : locals) (st : state)
    : (Z * state) + (locals * state) :=
  match opts with
  | [] => inr (l, st)
  | (opt, optarg) :: rest =>
      if Ascii.eqb opt "a" then
        inl (EXIT_SUCCESS, print_usage (printf nl (print_about st)))
      else if Ascii.eqb opt "h" || Ascii.eqb opt "H" then
        inl (EXIT_SUCCESS, print_usage st)
      else if Ascii.eqb opt "d" then
        getopt_loop rest
          (mkLocals (change_files l) true (recursive l) (include_dir l)
             (perm_flag l)) st
      else if Ascii.eqb opt "f" then
        getopt_loop rest
          (mkLocals true (change_dirs l) (recursive l) (include_dir l)
             (perm_flag l)) st
      else if Ascii.eqb opt "i" then
        getopt_loop rest
          (mkLocals (change_files l) (change_dirs l) (recursive l) true
             (perm_flag l)) st
      else if Ascii.eqb opt "n" then
        getopt_loop rest
          (mkLocals (change_files l) (change_dirs l) false (include_dir l)
             (perm_flag l)) st
      else if Ascii.eqb opt "s" then
        getopt_loop rest l (set_flags true false (verbose st) st)
      else if Ascii.eqb opt "S" then
        getopt_loop rest l
          (if negb (suppress_output st)
           then set_flags (suppress_output st) true (verbose st) st
           else st)
      else if Ascii.eqb opt "v" then
        getopt_loop rest l (set_flags false false true st)
      else if Ascii.eqb opt "p" then
        match validate_and_process_octal optarg st with
        | (r, st) =>
            if r =? -1 then inl (EXIT_FAILURE, st)
            else
              getopt_loop rest
                (mkLocals (change_files l) (change_dirs l) (recursive l)
                   (include_dir l) true) st
        end
      else
        inl (EXIT_FAILURE,
             print_usage
               (eprintf ("Error: Unknown (please see usage)" ++ nl ++ nl)%string
                  st))
  end.

(** The summary of lines 373-377. *)
Definition summary_lines (st : state) : list string :=
  if negb (suppress_all_output st) then
    [ "Operation completed." ++ nl;
      "Files changed: " ++ format_d (files_changed st) ++ nl;
      "Directories changed: " ++ format_d (dirs_changed st) ++ nl ]%string
  else [].

Definition print_summary (st : state) : state :=
  print_lines (summary_lines st) st.

Definition main (fuel : nat) (opts : list (ascii * string))
    (operands : list string) (st : state) : option (Z * state) :=
  match getopt_loop opts initial_locals st with
  | inl r => Some r
  | inr (l, st) =>
      match operands with
      | [] =>
          let st :=
            eprintf ("Error: Missing directory argument "
                     ++ "(directory argument should be last)" ++ nl ++ nl)%string
              st in
          Some (EXIT_FAILURE, print_usage st)
      | directory :: _ =>
          if negb (perm_flag l) then
            let st :=
              eprintf ("Error: No permissions detected (use -p)" ++ nl ++ nl)%string
                st in
            Some (EXIT_FAILURE, print_usage st)
          else
            let files :=
              if negb (change_files l) && negb (change_dirs l) then true
              else change_files l in
            match process_directory fuel directory 0 (recursive l) files
                    (change_dirs l) (include_dir l) st with
            | Some st => Some (EXIT_SUCCESS, print_summary st)
            | None => None
            end
      end
  end.

End Program.

Arguments state world : clear implicits.

End V01.

(** ** The mode specification as the specification words it

    A slot either keeps the original three bits or fixes them to a digit;
    [ModeSpec] has one slot per permission group, in the order user, group,
    other. *)

Inductive slot : Type :=
  | Keep
  | Fixed (d : Z).

Record ModeSpec : Type := mkModeSpec {
  ms_user : slot;
  ms_group : slot;
  ms_other : slot
}.

Definition is_octal_digit (c : ascii) : bool :=
  (48 <=? char_val c) && (char_val c <=? 55).

Definition slot_of_char (c : ascii) : option slot :=
  if Ascii.eqb c star then Some Keep
  else if is_octal_digit c then Some (Fixed (char_val c - char_0))
  else None.

(** The [ModeSpec] held by the first three characters of a
    [wildcard_mode] array. *)
Definition modespec_of (wildcard_mode : list ascii) : option ModeSpec :=
  match slot_of_char (char_at wildcard_mode 0),
        slot_of_char (char_at wildcard_mode 1),
        slot_of_char (char_at wildcard_mode 2) with
  | Some u, Some g, Some o => Some (mkModeSpec u g o)
  | _, _, _ => None
  end.

Definition pick (s : slot) (original : Z) : Z :=
  match s with
  | Keep => original
  | Fixed d => d
  end.

(** The apply contract of the specification: mask to nine bits, then
    choose each three-bit group from the slot or from the input. *)
Definition spec_apply (s : ModeSpec) (mode : Z) : Z :=
  let m := Z.land mode 511 in
  64 * pick (ms_user s) (m / 64)
  + 8 * pick (ms_group s) ((m / 8) mod 8)
  + pick (ms_other s) (m mod 8).

(** The characters the validator lets through. *)
Definition accepted_char (c : ascii) : bool :=
  existsb (Ascii.eqb c) ["4"; "5"; "6"; "7"; "*"]%char.

Definition accepted_wildcard (wildcard_mode : list ascii) : bool :=
  accepted_char (char_at wildcard_mode 0)
  && accepted_char (char_at wildcard_mode 1)
  && accepted_char (char_at wildcard_mode 2).

(** ** A small file system

    An instance of the interface, used to run the program on concrete
    trees: a list of nodes found by their path.  A symbolic link holds the
    path of its target and is resolved one level deep; [chmod] is refused
    on a node that is not [writable]. *)

Module Toy.

Record node : Type := mkNode {
  n_path : string;
  n_mode : Z;
  n_target : string;
  n_entries : list dirent;
  n_writable : bool
}.

Definition world : Type := list node.

Definition EPERM : Z := 1.
Definition ENOENT : Z := 2.
Definition ENOTDIR : Z := 20.
Definition ELOOP : Z := 40.

Definition find_node (w : world) (path : string) : option node :=
  find (fun n => String.eqb (n_path n) path) w.

(** The node a path leads to once a symbolic link is followed. *)
Definition resolve (w : world) (path : string) : sysres node :=
  match find_node w path with
  | None => Fail ENOENT
  | Some n =>
      if S_ISLNK (n_mode n) then
        match find_node w (n_target n) with
        | None => Fail ENOENT
        | Some t => if S_ISLNK (n_mode t) then Fail ELOOP else Ok t
        end
      else Ok n
  end.

Definition toy_lstat (w : world) (path : string) : sysres Z :=
  match find_node w path with
  | None => Fail ENOENT
  | Some n => Ok (n_mode n)
  end.

Definition toy_stat (w : world) (path : string) : sysres Z :=
  match resolve w path with
  | Ok n => Ok (n_mode n)
  | Fail e => Fail e
  end.

Definition set_node_mode (mode : Z) (n : node) : node :=
  mkNode (n_path n) (Z.lor (Z.land (n_mode n) S_IFMT) (Z.land mode 4095))
    (n_target n) (n_entries n) (n_writable n).

Definition toy_chmod (w : world) (path : string) (mode : Z) : sysres world :=
  match resolve w path with
  | Fail e => Fail e
  | Ok n =>
      if n_writable n then
        Ok (map (fun k => if String.eqb (n_path k) (n_path n)
                          then set_node_mode mode k else k) w)
      else Fail EPERM
  end.

Definition toy_opendir (w : world) (path : string) : sysres (list dirent) :=
  match resolve w path with
  | Fail e => Fail e
  | Ok n => if S_ISDIR (n_mode n) then Ok (n_entries n) else Fail ENOTDIR
  end.

Definition toy_strerror (e : Z) : string :=
  if e =? EPERM then "Operation not permitted"
  else if e =? ENOENT then "No such file or directory"
  else if e =? ENOTDIR then "Not a directory"
  else if e =? ELOOP then "Too many levels of symbolic links"
  else "Unknown error".

Definition OS : posix world :=
  mkPosix world toy_lstat toy_stat toy_chmod toy_opendir toy_strerror.

Definition file (path : string) (perm : Z) (writable : bool) : node :=
  mkNode path (Z.lor S_IFREG perm) "" [] writable.

Definition dir (path : string) (perm : Z) (entries : list dirent)
    (writable : bool) : node :=
  mkNode path (Z.lor S_IFDIR perm) "" entries writable.

Definition link (path target : string) : node :=
  mkNode path (Z.lor S_IFLNK 511) target [] true.

(** The tree [/r/{a.txt, sub/{b.txt}, ln -> a.txt, locked.txt, vault/}];
    [locked.txt] and [vault] refuse [chmod]. *)
Definition tree : world :=
  [ dir "/r" 493
      [ mkDirent "." DT_DIR; mkDirent ".." DT_DIR;
        mkDirent "a.txt" DT_REG; mkDirent "sub" DT_DIR;
        mkDirent "ln" DT_LNK; mkDirent "locked.txt" DT_REG;
        mkDirent "vault" DT_DIR ] true;
    file "/r/a.txt" 420 true;
    dir "/r/sub" 493
      [ mkDirent "." DT_DIR; mkDirent ".." DT_DIR; mkDirent "b.txt" DT_REG ]
      true;
    file "/r/sub/b.txt" 384 true;
    link "/r/ln" "/r/a.txt";
    file "/r/locked.txt" 384 false;
    dir "/r/vault" 448 [ mkDirent "." DT_DIR; mkDirent ".." DT_DIR ] false ].

(** A tree without symbolic links: [/p/{x.txt}]. *)
Definition plain : world :=
  [ dir "/p" 493
      [ mkDirent "." DT_DIR; mkDirent ".." DT_DIR; mkDirent "x.txt" DT_REG ]
      true;
    file "/p/x.txt" 420 true ].

End Toy.

(** ** Observations on a state of version 0.2 *)

(** The five counters of the run summary: files changed, directories
    changed, symlinks skipped, symlinks followed, symlink errors. *)
Definition counters {world : Type} (st : V02.state world)
    : Z * Z * Z * Z * Z :=
  (V02.files_changed st, V02.dirs_changed st, V02.symlinks_skipped st,
   V02.symlinks_followed st, V02.symlink_errors st).

Definition is_chmod (e : event) : bool :=
  match e with Chmod _ _ _ => true | _ => false end.

Definition is_stderr (e : event) : bool :=
  match e with Stderr _ => true | _ => false end.

(** The [chmod] calls of a trace. *)
Definition chmods (t : list event) : list event := filter is_chmod t.

(** What was written on the error stream. *)
Definition diagnostics (t : list event) : list event := filter is_stderr t.

(** The [st_mode] that reaches line 230 of [change_permissions] for an
    entry: that of the entry itself, that of the target for a symbolic
    link under the follow policy, none when the function returns
    before. *)
Definition entry_mode {world : Type} (OS : posix world) (path : string)
    (symlink_mode : V02.symlink_mode_t) (st : V02.state world) : option Z :=
  match lstat OS (V02.fs st) path with
  | Fail _ => None
  | Ok m =>
      if S_ISLNK m then
        match symlink_mode with
        | V02.SYMLINK_FOLLOW =>
            match stat OS (V02.fs st) path with
            | Ok target_mode => Some target_mode
            | Fail _ => None
            end
        | _ => None
        end
      else Some m
  end.

(** The initial state on the small tree once [-p] has stored a
    specification. *)
Definition toy_state (spec : list ascii) : V02.state Toy.world :=
  V02.set_wildcard_mode spec (V02.initial_state Toy.tree).

(** ** The lines of the run summary *)

Definition files_line {world : Type} (st : V02.state world) : string :=
  ("Files changed: " ++ format_d (V02.files_changed st) ++ nl)%string.

Definition dirs_line {world : Type} (st : V02.state world) : string :=
  ("Directories changed: " ++ format_d (V02.dirs_changed st) ++ nl)%string.

Definition skipped_line {world : Type} (st : V02.state world) : string :=
  ("Symlinks skipped: " ++ format_d (V02.symlinks_skipped st) ++ nl)%string.

Definition followed_line {world : Type} (st : V02.state world) : string :=
  ("Symlinks followed: " ++ format_d (V02.symlinks_followed st) ++ nl)%string.

Definition errors_line {world : Type} (st : V02.state world) : string :=
  ("Symlink errors found: " ++ format_d (V02.symlink_errors st) ++ nl)%string.

(** The line of the counter that belongs to the active policy. *)
Definition policy_line {world : Type} (st : V02.state world) : string :=
  match V02.symlink_mode st with
  | V02.SYMLINK_SKIP => skipped_line st
  | V02.SYMLINK_FOLLOW => followed_line st
  | V02.SYMLINK_ERROR => errors_line st
  end.

(** The counter that belongs to the active policy. *)
Definition policy_counter {world : Type} (st : V02.state world) : Z :=
  match V02.symlink_mode st with
  | V02.SYMLINK_SKIP => V02.symlinks_skipped st
  | V02.SYMLINK_FOLLOW => V02.symlinks_followed st
  | V02.SYMLINK_ERROR => V02.symlink_errors st
  end.

(** The [files] argument that [main] passes to [process_directory]
    (lines 436-438). *)
Definition effective_files (l : V02.locals) : bool :=
  if negb (V02.change_files l) && negb (V02.change_dirs l) then true
  else V02.change_files l.

(** The state in which the walk of [rper -p 644 /r] on the small tree
    ends. *)
Definition toy_after_walk : V02.state Toy.world :=
  Eval vm_compute in
    match V02.process_directory Toy.OS 5 "/r" true true false false
            V02.SYMLINK_SKIP (toy_state ["6"; "4"; "4"; NUL]%char) with
    | Some st => st
    | None => V02.initial_state Toy.tree
    end.

(** ** Order on the counters *)



(** A counter after an operation: left alone or incremented once. *)
Definition kept_or_incremented (before after : Z) : Prop :=
  after = before \/ after = int_incr before.

(** One operation on the counters: each is left alone or incremented
    once. *)
Definition counters_step {world : Type} (a b : V02.state world) : Prop :=
  kept_or_incremented (V02.files_changed a) (V02.files_changed b)
  /\ kept_or_incremented (V02.dirs_changed a) (V02.dirs_changed b)
  /\ kept_or_incremented (V02.symlinks_skipped a) (V02.symlinks_skipped b)
  /\ kept_or_incremented (V02.symlinks_followed a) (V02.symlinks_followed b)
  /\ kept_or_incremented (V02.symlink_errors a) (V02.symlink_errors b).

(** A sequence of such operations. *)
Inductive counters_steps {world : Type}
    : V02.state world -> V02.state world -> Prop :=
  | steps_done (a : V02.state world) : counters_steps a a
  | steps_more (a b c : V02.state world) :
      counters_step a b -> counters_steps b c -> counters_steps a c.

(** ** Definitions used by the proofs *)

(** The map [x |-> (x & a) | b]. *)
Definition masked (a b x : Z) : Z := Z.lor (Z.land x a) b.

(** The characters that stand for a slot: the wildcard and the octal
    digits. *)
Definition slot_chars : list ascii :=
  ["*"; "0"; "1"; "2"; "3"; "4"; "5"; "6"; "7"]%char.

(** A nine-bit value from its three groups. *)
Definition join (u g o : Z) : Z := 64 * u + 8 * g + o.

(** What one turn of the loop does to a nine-bit value, written on its
    three groups: the group of index [i] is replaced by the slot's choice,
    the two others stay. *)
Definition step_contract (s : slot) (i : nat) (x : Z) : Z :=
  match i with
  | 0%nat => join (pick s (x / 64)) ((x / 8) mod 8) (x mod 8)
  | 1%nat => join (x / 64) (pick s ((x / 8) mod 8)) (x mod 8)
  | _ => join (x / 64) ((x / 8) mod 8) (pick s (x mod 8))
  end.

(** One turn of the loop when the slot of index [i] holds [c]. *)
Definition step_char (c : ascii) (x : Z) (i : nat) : Z :=
  V02.apply_wildcard_step [c; c; c] x i.

(** The check that one turn of the loop follows [step_contract] on one
    value. *)
Definition step_agrees (c : ascii) (i : nat) (x : Z) : bool :=
  match slot_of_char c with
  | Some s => step_char c x i =? step_contract s i x
  | None => true
  end.

(** The grammar of the specification: three characters among 4, 5, 6, 7
    and the wildcard, or the digit 0 followed by three such characters. *)
Definition in_grammar (s : string) : bool :=
  match list_ascii_of_string s with
  | [a; b; c] => accepted_char a && accepted_char b && accepted_char c
  | [z; a; b; c] =>
      Ascii.eqb z "0" && accepted_char a && accepted_char b && accepted_char c
  | _ => false
  end.

(** ** Definitions used by the further properties *)

(** The configuration globals that the option loop sets. *)
Definition config {world : Type} (st : V02.state world)
    : list ascii * V02.output_mode_t * V02.symlink_mode_t :=
  (V02.wildcard_mode st, V02.output_mode st, V02.symlink_mode st).

(** Several events in a row. *)
Definition emit_all {world : Type} (evs : list event) (st : V02.state world)
    : V02.state world :=
  fold_left (fun s e => V02.emit e s) evs st.

Definition is_stdout (e : event) : bool :=
  match e with Stdout _ => true | _ => false end.

(** What was written on the standard output. *)
Definition stdouts (t : list event) : list event := filter is_stdout t.

(** The text of the [Stdout] events of a trace, in order. *)
Fixpoint stdout_text (t : list event) : string :=
  match t with
  | [] => EmptyString
  | Stdout text :: t' => (text ++ stdout_text t')%string
  | _ :: t' => stdout_text t'
  end.

(** The mode of every [chmod] call of a trace is a nine-bit value. *)
Definition chmod_modes_nine_bit (t : list event) : Prop :=
  Forall (fun e => match e with
                   | Chmod _ mode _ => 0 <= mode < 512
                   | _ => True
                   end) t.

(** The option argument as the validator reads it: without the leading 0
    of a four-character argument. *)
Definition normalized (optarg : string) : string :=
  if Nat.eqb (String.length optarg) 4
     && match String.get 0 optarg with
        | Some c => Ascii.eqb c "0"
        | None => false
        end
  then str_tail optarg else optarg.

(** The change is attempted on an entry of this [st_mode]. *)
Definition requested (st_mode : Z) (cf cd : bool) : bool :=
  (S_ISDIR st_mode && cd) || (S_ISREG st_mode && cf).

(** Entries other than [.] and [..]. *)
Definition not_dot (entry : dirent) : bool :=
  negb (String.eqb (d_name entry) "." || String.eqb (d_name entry) "..").

(** The output mode after the options, from the output mode before: the
    last of [-s], [-S], [-v] decides. *)
Definition output_mode_after (opts : list (ascii * string))
    (o : V02.output_mode_t) : V02.output_mode_t :=
  fold_left
    (fun o opt =>
       if Ascii.eqb (fst opt) "s" then V02.OUTPUT_QUIET
       else if Ascii.eqb (fst opt) "S" then V02.OUTPUT_SILENT
       else if Ascii.eqb (fst opt) "v" then V02.OUTPUT_VERBOSE
       else o)
    opts o.

(** The symlink policy after the options: the last of [-L], [-k]
    decides. *)
Definition symlink_mode_after (opts : list (ascii * string))
    (m : V02.symlink_mode_t) : V02.symlink_mode_t :=
  fold_left
    (fun m opt =>
       if Ascii.eqb (fst opt) "L" then V02.SYMLINK_FOLLOW
       else if Ascii.eqb (fst opt) "k" then V02.SYMLINK_ERROR
       else m)
    opts m.

(** No option of the list is the given character. *)
Definition lacks (c : ascii) (opts : list (ascii * string)) : bool :=
  forallb (fun opt => negb (Ascii.eqb (fst opt) c)) opts.
(** The events of the line that reports a change. *)
Definition change_events (tag path : string) (old_mode new_mode : Z)
    (w : list ascii) : list event :=
  [Stdout tag; Stdout (format_o (Z.land old_mode 511)); Stdout " -> [";
   Stdout (format_c (char_at w 0)); Stdout (format_c (char_at w 1));
   Stdout (format_c (char_at w 2)); Stdout "] ";
   Stdout (format_o (Z.land new_mode 511));
   Stdout (") " ++ path ++ nl)%string].

(** What was written on either stream. *)
Definition outputs (t : list event) : list event :=
  filter (fun e => negb (is_chmod e)) t.

(** The invariant of the option loop on [perm_flag]: once it is set,
    [wildcard_mode] holds three accepted characters. *)
Definition perm_invariant {world : Type} (l : V02.locals)
    (st : V02.state world) : Prop :=
  V02.perm_flag l = true -> accepted_wildcard (V02.wildcard_mode st) = true.

(** A value of the [int] range. *)
Definition in_int (x : Z) : Prop := - 2 ^ 31 <= x < 2 ^ 31.

Definition is_successful_chmod (e : event) : bool :=
  match e with Chmod _ _ true => true | _ => false end.

(** The number of [chmod] calls of a trace that succeeded. *)
Definition successful_chmods (t : list event) : Z :=
  Z.of_nat (List.length (filter is_successful_chmod t)).

(** The accounting of a stretch of the run: [files_changed] went up by
    [nf] and [dirs_changed] by [nd] in [int] arithmetic, and [nf + nd]
    [chmod] calls succeeded. *)
Definition accounted {world : Type} (a b : V02.state world) : Prop :=
  in_int (V02.files_changed a) -> in_int (V02.dirs_changed a) ->
  in_int (V02.files_changed b) /\ in_int (V02.dirs_changed b)
  /\ exists nf nd,
       0 <= nf /\ 0 <= nd
       /\ successful_chmods (chmods (V02.trace b))
          = successful_chmods (chmods (V02.trace a)) + nf + nd
       /\ u32 (V02.files_changed b) = u32 (V02.files_changed a + nf)
       /\ u32 (V02.dirs_changed b) = u32 (V02.dirs_changed a + nd).

(** The entry cannot be examined: [lstat] fails, or the entry is a
    symbolic link to follow and [stat] fails. *)
Definition inaccessible {world : Type} (OS : posix world) (path : string)
    (symlink_mode : V02.symlink_mode_t) (st : V02.state world) : bool :=
  match lstat OS (V02.fs st) path with
  | Fail _ => true
  | Ok m =>
      S_ISLNK m
      && match symlink_mode with
         | V02.SYMLINK_FOLLOW =>
             match stat OS (V02.fs st) path with
             | Fail _ => true
             | Ok _ => false
             end
         | _ => false
         end
  end.

(** The path that the walk builds for an entry of a directory. *)
Definition entry_path (dir_path : string) (entry : dirent) : string :=
  snprintf 1024 (dir_path ++ "/" ++ d_name entry)%string.

(** The walk does not descend into the entry. *)
Definition stays_out (recursive : bool) (entry : dirent) : bool :=
  negb (recursive && is_DT_DIR (d_type entry)).

(** The state in which [process_directory] opens the directory: after the
    change of the directory itself when [-d -i] asks for it. *)
Definition after_root {world : Type} (OS : posix world) (dir_path : string)
    (cd include_dir : bool) (policy : V02.symlink_mode_t)
    (st : V02.state world) : V02.state world :=
  V02.when (cd && include_dir)
    (V02.change_permissions OS dir_path false true policy) st.

(** The slot that two specifications applied one after the other amount
    to: the second, unless it is the wildcard. *)
Definition merge_char (first second : ascii) : ascii :=
  if Ascii.eqb second star then first else second.

Definition merge_wildcard (first second : list ascii) : list ascii :=
  [merge_char (char_at first 0) (char_at second 0);
   merge_char (char_at first 1) (char_at second 1);
   merge_char (char_at first 2) (char_at second 2);
   NUL].

(** ** States of the small tree used by the witnesses *)

(** The walk of [/r] as [rper -p MODE /r] starts it, from a state of the
    small tree. *)
Definition toy_walk (st : V02.state Toy.world) : V02.state Toy.world :=
  match V02.process_directory Toy.OS 5 "/r" true true false false
          V02.SYMLINK_SKIP st with
  | Some st' => st'
  | None => st
  end.

(** The state in which [rper -p 644 /r] ends on the small tree. *)
Definition toy_after_run : V02.state Toy.world :=
  V02.print_summary toy_after_walk.

(** The globals of version 0.1 on the small tree once [-p] has stored a
    specification. *)
Definition toy_state01 (spec : list ascii) : V01.state Toy.world :=
  V01.set_wildcard_mode spec (V01.initial_state Toy.tree).

(** The three output flags of version 0.1. *)
Definition flags01 {world : Type} (st : V01.state world)
    : bool * bool * bool :=
  (V01.suppress_output st, V01.suppress_all_output st, V01.verbose st).

(** The output of version 0.1 is suppressed by either flag and [verbose]
    is not set. *)
Definition hushed01 {world : Type} (st : V01.state world) : Prop :=
  V01.not_suppressed st = false /\ V01.verbose st = false.

(** * Properties *)

(** ** Machine arithmetic *)

Lemma u32_range (x : Z) : 0 <= u32 x < 2 ^ 32.
Proof. unfold u32. apply Z.mod_pos_bound. reflexivity. Qed.

Lemma u32_small (x : Z) : 0 <= x < 2 ^ 32 -> u32 x = x.
Proof. intros H. unfold u32. now apply Z.mod_small. Qed.

(** Inside the [int] range, [x++] adds one. *)
Lemma int_incr_small (x : Z) :
  - 2 ^ 31 <= x + 1 < 2 ^ 31 -> int_incr x = x + 1.
Proof.
  intros H. unfold int_incr, s32. rewrite Z.mod_small by lia. lia.
Qed.

Lemma land_511_range (x : Z) : 0 <= Z.land x 511 < 512.
Proof.
  change 511 with (Z.ones 9). rewrite Z.land_ones by lia.
  change 512 with (2 ^ 9). apply Z.mod_pos_bound. reflexivity.
Qed.

Lemma land_511_idem (x : Z) : Z.land (Z.land x 511) 511 = Z.land x 511.
Proof. rewrite <- Z.land_assoc. now rewrite Z.land_diag. Qed.

(** Exhaustive check of a boolean property below a bound. *)
Lemma forall_below (P : Z -> bool) (n : nat) :
  forallb P (map Z.of_nat (seq 0 n)) = true ->
  forall x, 0 <= x < Z.of_nat n -> P x = true.
Proof.
  intros Hall x Hx.
  rewrite forallb_forall in Hall. apply Hall.
  apply in_map_iff. exists (Z.to_nat x). split.
  - lia.
  - apply in_seq. lia.
Qed.

(** ** The bitwise shape of [apply_wildcard_mode]

    Every step of the loop, and therefore the whole function, sends [x] to
    [(x & a) | b] for two constants that depend on the specification
    only. *)

Lemma masked_compose (a1 b1 a2 b2 x : Z) :
  masked a2 b2 (masked a1 b1 x)
  = masked (Z.land a1 a2) (Z.lor (Z.land b1 a2) b2) x.
Proof.
  unfold masked. apply Z.bits_inj'. intros n Hn.
  rewrite ?Z.lor_spec, ?Z.land_spec, ?Z.lor_spec, ?Z.land_spec.
  destruct (Z.testbit x n), (Z.testbit a1 n), (Z.testbit a2 n),
    (Z.testbit b1 n), (Z.testbit b2 n); reflexivity.
Qed.

Lemma masked_idem (a b x : Z) : masked a b (masked a b x) = masked a b x.
Proof.
  unfold masked. apply Z.bits_inj'. intros n Hn.
  rewrite ?Z.lor_spec, ?Z.land_spec, ?Z.lor_spec, ?Z.land_spec.
  destruct (Z.testbit x n), (Z.testbit a n), (Z.testbit b n); reflexivity.
Qed.

Lemma v02_step_masked (w : list ascii) (i : nat) :
  exists a b, forall x, V02.apply_wildcard_step w x i = masked a b x.
Proof.
  unfold V02.apply_wildcard_step.
  destruct (Ascii.eqb (char_at w i) star).
  - exists (-1), 0. intros x. unfold masked.
    now rewrite Z.land_m1_r, Z.lor_0_r.
  - eexists. eexists. intros x. unfold masked. reflexivity.
Qed.

Lemma v02_apply_masked (w : list ascii) :
  exists a b, forall x, V02.apply_wildcard_mode w x = masked a b x.
Proof.
  destruct (v02_step_masked w 0) as (a0 & b0 & H0).
  destruct (v02_step_masked w 1) as (a1 & b1 & H1).
  destruct (v02_step_masked w 2) as (a2 & b2 & H2).
  eexists. eexists. intros x.
  unfold V02.apply_wildcard_mode. simpl fold_left.
  rewrite H2, H1, H0.
  replace (Z.land x 511) with (masked 511 0 x)
    by (unfold masked; apply Z.lor_0_r).
  rewrite !masked_compose. reflexivity.
Qed.

(** C7. Applying a mode specification twice gives what applying it once
    gives: for every content of [wildcard_mode] (valid or not) and every
    mode value, [apply (apply m) = apply m]. *)
Theorem apply_wildcard_mode_idempotent (wildcard_mode : list ascii) (m : Z) :
  V02.apply_wildcard_mode wildcard_mode (V02.apply_wildcard_mode wildcard_mode m)
  = V02.apply_wildcard_mode wildcard_mode m.
Proof.
  destruct (v02_apply_masked wildcard_mode) as (a & b & H).
  rewrite !H. apply masked_idem.
Qed.

(** ** [apply_wildcard_mode] against the apply contract *)

Lemma v02_apply_mask_first (w : list ascii) (m : Z) :
  V02.apply_wildcard_mode w m = V02.apply_wildcard_mode w (Z.land m 511).
Proof. unfold V02.apply_wildcard_mode. now rewrite land_511_idem. Qed.

Lemma spec_apply_mask_first (s : ModeSpec) (m : Z) :
  spec_apply s m = spec_apply s (Z.land m 511).
Proof. unfold spec_apply. now rewrite land_511_idem. Qed.

(** The function reads the first three characters of the array only. *)
Lemma v02_apply_reads_three (w : list ascii) (m : Z) :
  V02.apply_wildcard_mode w m
  = V02.apply_wildcard_mode [char_at w 0; char_at w 1; char_at w 2] m.
Proof. reflexivity. Qed.

Lemma slot_of_char_inv (c : ascii) (s : slot) :
  slot_of_char c = Some s -> In c slot_chars.
Proof.
  destruct c as [[] [] [] [] [] [] [] []]; vm_compute; intros H;
    first [ discriminate H | tauto ].
Qed.

Lemma v02_step_char (w : list ascii) (x : Z) (i : nat) :
  (i < 3)%nat ->
  V02.apply_wildcard_step w x i = step_char (char_at w i) x i.
Proof.
  intros Hi. destruct i as [|[|[|i]]]; try lia; reflexivity.
Qed.

Lemma step_agrees_all :
  forallb (fun c => forallb (fun i =>
      forallb (step_agrees c i) (map Z.of_nat (seq 0 512)))
    [0%nat; 1%nat; 2%nat]) slot_chars = true.
Proof. vm_compute. reflexivity. Qed.

Lemma v02_step_contract (w : list ascii) (s : slot) (i : nat) (x : Z) :
  (i < 3)%nat -> slot_of_char (char_at w i) = Some s -> 0 <= x < 512 ->
  V02.apply_wildcard_step w x i = step_contract s i x.
Proof.
  intros Hi Hs Hx. rewrite v02_step_char by exact Hi.
  pose proof step_agrees_all as Hall.
  rewrite forallb_forall in Hall.
  specialize (Hall _ (slot_of_char_inv _ _ Hs)).
  rewrite forallb_forall in Hall.
  assert (Hin : In i [0%nat; 1%nat; 2%nat]) by (simpl; lia).
  specialize (Hall i Hin).
  pose proof (forall_below _ 512 Hall x Hx) as Hag.
  unfold step_agrees in Hag. rewrite Hs in Hag.
  now apply Z.eqb_eq in Hag.
Qed.

Lemma join_groups (u g o : Z) :
  0 <= u < 8 -> 0 <= g < 8 -> 0 <= o < 8 ->
  join u g o / 64 = u /\ (join u g o / 8) mod 8 = g /\ join u g o mod 8 = o.
Proof.
  unfold join. intros Hu Hg Ho.
  assert (E64 : (64 * u + 8 * g + o) / 64 = u)
    by (symmetry; apply Z.div_unique with (r := 8 * g + o); lia).
  assert (E8 : (64 * u + 8 * g + o) / 8 = 8 * u + g)
    by (symmetry; apply Z.div_unique with (r := o); lia).
  repeat split.
  - exact E64.
  - rewrite E8. symmetry. apply Z.mod_unique with (q := u); lia.
  - symmetry. apply Z.mod_unique with (q := 8 * u + g); lia.
Qed.

Lemma slot_of_char_range (c : ascii) (s : slot) (orig : Z) :
  slot_of_char c = Some s -> 0 <= orig < 8 -> 0 <= pick s orig < 8.
Proof.
  unfold slot_of_char, is_octal_digit, char_0.
  destruct (Ascii.eqb c star).
  - intros [= <-]. simpl. tauto.
  - destruct (_ && _) eqn:E; [|discriminate].
    intros [= <-] _. simpl. lia.
Qed.

Lemma step_contract_range (c : ascii) (s : slot) (i : nat) (x : Z) :
  slot_of_char c = Some s -> 0 <= x < 512 ->
  0 <= step_contract s i x < 512.
Proof.
  intros Hs Hx.
  assert (H0 := slot_of_char_range c s (x / 64) Hs).
  assert (H1 := slot_of_char_range c s ((x / 8) mod 8) Hs).
  assert (H2 := slot_of_char_range c s (x mod 8) Hs).
  assert (Hu : 0 <= x / 64 < 8) by (Z.div_mod_to_equations; lia).
  assert (Hg : 0 <= (x / 8) mod 8 < 8) by (Z.div_mod_to_equations; lia).
  assert (Ho : 0 <= x mod 8 < 8) by (Z.div_mod_to_equations; lia).
  specialize (H0 Hu). specialize (H1 Hg). specialize (H2 Ho).
  unfold step_contract, join.
  destruct i as [|[|i]]; lia.
Qed.

(** C1. For a [wildcard_mode] that holds a mode specification (each of
    the three slots the wildcard or an octal digit) and every mode value,
    [apply_wildcard_mode] returns what the apply contract says: the input
    is masked to nine bits, a wildcard slot keeps the three original bits
    of its group and a digit slot replaces them with the digit.  The
    result is a nine-bit value; the function is total. *)
Theorem apply_wildcard_mode_contract
    (wildcard_mode : list ascii) (s : ModeSpec) (m : Z)
    (Hspec : modespec_of wildcard_mode = Some s) :
  V02.apply_wildcard_mode wildcard_mode m = spec_apply s m
  /\ 0 <= V02.apply_wildcard_mode wildcard_mode m < 512.
Proof.
  unfold modespec_of in Hspec.
  destruct (slot_of_char (char_at wildcard_mode 0)) as [s0|] eqn:E0;
    [|discriminate].
  destruct (slot_of_char (char_at wildcard_mode 1)) as [s1|] eqn:E1;
    [|discriminate].
  destruct (slot_of_char (char_at wildcard_mode 2)) as [s2|] eqn:E2;
    [|discriminate].
  injection Hspec as <-.
  unfold V02.apply_wildcard_mode, spec_apply. simpl fold_left.
  pose proof (land_511_range m) as Hx. set (x := Z.land m 511) in *.
  pose proof (step_contract_range _ _ 0 x E0 Hx) as Hx0.
  rewrite (v02_step_contract _ s0 0 x) by (lia || assumption).
  set (x0 := step_contract s0 0 x) in *.
  pose proof (step_contract_range _ _ 1 x0 E1 Hx0) as Hx1.
  rewrite (v02_step_contract _ s1 1 x0) by (lia || assumption).
  set (x1 := step_contract s1 1 x0) in *.
  pose proof (step_contract_range _ _ 2 x1 E2 Hx1) as Hx2.
  rewrite (v02_step_contract _ s2 2 x1) by (lia || assumption).
  split; [|exact Hx2].
  assert (H0 := slot_of_char_range _ s0 (x / 64) E0).
  assert (H1 := slot_of_char_range _ s1 ((x / 8) mod 8) E1).
  assert (H2 := slot_of_char_range _ s2 (x mod 8) E2).
  subst x1 x0. cbn [step_contract ms_user ms_group ms_other].
  assert (Hu0 : 0 <= x / 64 < 8) by (Z.div_mod_to_equations; lia).
  assert (Hg : 0 <= (x / 8) mod 8 < 8) by (Z.div_mod_to_equations; lia).
  assert (Ho : 0 <= x mod 8 < 8) by (Z.div_mod_to_equations; lia).
  assert (Hu : 0 <= pick s0 (x / 64) < 8) by (apply H0; exact Hu0).
  destruct (join_groups _ _ _ Hu Hg Ho) as (-> & -> & ->).
  assert (Hg' : 0 <= pick s1 ((x / 8) mod 8) < 8) by (apply H1; exact Hg).
  destruct (join_groups _ _ _ Hu Hg' Ho) as (-> & -> & ->).
  reflexivity.
Qed.

(** The specification ["6*4"] on mode 0750 gives 0654. *)
Lemma apply_wildcard_mode_contract_witness :
  V02.apply_wildcard_mode ["6"; "*"; "4"; NUL]%char 488 = 428.
Proof.
  exact (proj1 (apply_wildcard_mode_contract ["6"; "*"; "4"; NUL]%char
           (mkModeSpec (Fixed 6) Keep (Fixed 4)) 488 eq_refl)).
Defined.

(** ** The two versions of [apply_wildcard_mode] *)

Lemma accepted_char_inv (c : ascii) :
  accepted_char c = true -> In c ["4"; "5"; "6"; "7"; "*"]%char.
Proof.
  unfold accepted_char. intros H. apply existsb_exists in H.
  destruct H as (d & Hin & Heq). apply Ascii.eqb_eq in Heq. now subst d.
Qed.

Lemma apply_wildcard_step_versions (w : list ascii) (x : Z) (i : nat) :
  (i < 3)%nat -> accepted_char (char_at w i) = true ->
  V01.apply_wildcard_step w x i = V02.apply_wildcard_step w x i.
Proof.
  intros Hi Hc. apply accepted_char_inv in Hc.
  unfold V01.apply_wildcard_step, V02.apply_wildcard_step.
  destruct i as [|[|[|i]]]; try lia;
    simpl in Hc; destruct Hc as [<-|[<-|[<-|[<-|[<-|[]]]]]];
    cbn [Ascii.eqb star Bool.eqb]; cbv iota; reflexivity.
Qed.

(** C10. On a [wildcard_mode] whose three characters are among 4, 5, 6, 7
    and the wildcard, version 0.1 of [apply_wildcard_mode] (mask and digit
    shifted as [int]) and version 0.2 (cast to [mode_t] first) return the
    same value on every input mode. *)
Theorem apply_wildcard_mode_versions_agree
    (wildcard_mode : list ascii) (m : Z)
    (Hvalid : accepted_wildcard wildcard_mode = true) :
  V01.apply_wildcard_mode wildcard_mode m
  = V02.apply_wildcard_mode wildcard_mode m.
Proof.
  unfold accepted_wildcard in Hvalid.
  apply andb_prop in Hvalid as [Hvalid H2].
  apply andb_prop in Hvalid as [H0 H1].
  unfold V01.apply_wildcard_mode, V02.apply_wildcard_mode. simpl fold_left.
  rewrite (apply_wildcard_step_versions _ _ 0) by (lia || assumption).
  rewrite (apply_wildcard_step_versions _ _ 1) by (lia || assumption).
  rewrite (apply_wildcard_step_versions _ _ 2) by (lia || assumption).
  reflexivity.
Qed.

Lemma apply_wildcard_mode_versions_agree_witness :
  V01.apply_wildcard_mode ["6"; "*"; "4"; NUL]%char 488
  = V02.apply_wildcard_mode ["6"; "*"; "4"; NUL]%char 488.
Proof.
  exact (apply_wildcard_mode_versions_agree ["6"; "*"; "4"; NUL]%char 488
           eq_refl).
Defined.

(** ** The validator *)

(** C2. [validate_and_process_octal] returns 0 exactly on the strings of
    the grammar (length 3 over 4, 5, 6, 7 and the wildcard, or length 4
    with a leading 0 before three such characters) and -1 on every other
    string. *)
Theorem validate_and_process_octal_accepts_grammar
    {world : Type} (optarg : string) (st : V02.state world) :
  fst (V02.validate_and_process_octal optarg st)
  = if in_grammar optarg then 0 else -1.
Proof.
  unfold V02.validate_and_process_octal, in_grammar.
  change accepted_char with (char_in "4567*").
  destruct optarg as [|c0 [|c1 [|c2 [|c3 [|c4 rest]]]]]; try reflexivity.
  - (* three characters *)
    cbn [String.length Nat.eqb andb str_tail list_ascii_of_string strspn].
    destruct (char_in "4567*" c0), (char_in "4567*" c1),
      (char_in "4567*" c2); reflexivity.
  - (* four characters *)
    cbn [String.length Nat.eqb andb str_tail list_ascii_of_string
         String.get].
    destruct (Ascii.eqb c0 "0"); [|reflexivity].
    cbn [String.length Nat.eqb andb str_tail strspn Nat.sub].
    destruct (char_in "4567*" c1), (char_in "4567*" c2),
      (char_in "4567*" c3); reflexivity.
Qed.

(** What an accepted option argument leaves in [wildcard_mode]: three
    accepted characters, hence a mode specification. *)
Lemma validated_wildcard_accepted {world : Type} (optarg : string)
    (st : V02.state world) :
  fst (V02.validate_and_process_octal optarg st) = 0 ->
  accepted_wildcard
    (V02.wildcard_mode (snd (V02.validate_and_process_octal optarg st)))
  = true.
Proof.
  unfold V02.validate_and_process_octal, accepted_wildcard.
  change accepted_char with (char_in "4567*").
  destruct optarg as [|c0 [|c1 [|c2 [|c3 [|c4 rest]]]]];
    try (cbn; discriminate).
  - cbn [String.length Nat.eqb andb str_tail strspn].
    destruct (char_in "4567*" c0) eqn:E0, (char_in "4567*" c1) eqn:E1,
      (char_in "4567*" c2) eqn:E2; try (cbn; discriminate).
    intros _. unfold strncpy.
    cbn [negb orb Nat.eqb snd V02.wildcard_mode V02.set_wildcard_mode
         strncpy_chars app char_at nth].
    now rewrite E0, E1, E2.
  - cbn [String.length Nat.eqb andb str_tail String.get].
    destruct (Ascii.eqb c0 "0"); [|cbn; discriminate].
    cbn [String.length Nat.eqb andb str_tail strspn Nat.sub].
    destruct (char_in "4567*" c1) eqn:E1, (char_in "4567*" c2) eqn:E2,
      (char_in "4567*" c3) eqn:E3; try (cbn; discriminate).
    intros _. unfold strncpy.
    cbn [negb orb Nat.eqb snd V02.wildcard_mode V02.set_wildcard_mode
         strncpy_chars app char_at nth].
    now rewrite E1, E2, E3.
Qed.

(** ** Counters, file system and trace through the state functions *)

Lemma chmods_app (t u : list event) : chmods (t ++ u) = chmods t ++ chmods u.
Proof. apply filter_app. Qed.

Lemma diagnostics_app (t u : list event) :
  diagnostics (t ++ u) = diagnostics t ++ diagnostics u.
Proof. apply filter_app. Qed.

Section StateFacts.

Context {world : Type} (OS : posix world).

Implicit Types st : V02.state world.

Lemma counters_when_printf (b : bool) (text : string) st :
  counters (V02.when b (V02.printf text) st) = counters st.
Proof. destruct b; reflexivity. Qed.

Lemma counters_when_eprintf (b : bool) (text : string) st :
  counters (V02.when b (V02.eprintf text) st) = counters st.
Proof. destruct b; reflexivity. Qed.

Lemma fs_when_printf (b : bool) (text : string) st :
  V02.fs (V02.when b (V02.printf text) st) = V02.fs st.
Proof. destruct b; reflexivity. Qed.


Lemma chmods_when_printf (b : bool) (text : string) st :
  chmods (V02.trace (V02.when b (V02.printf text) st))
  = chmods (V02.trace st).
Proof.
  destruct b; [|reflexivity]. simpl. rewrite chmods_app. apply app_nil_r.
Qed.


Lemma output_mode_when_printf (b : bool) (text : string) st :
  V02.output_mode (V02.when b (V02.printf text) st) = V02.output_mode st.
Proof. destruct b; reflexivity. Qed.

Lemma counters_print_change (tag path : string) (o n : Z) st :
  counters (V02.print_change tag path o n st) = counters st.
Proof.
  unfold V02.print_change, V02.print_wildcard_mode, V02.print_permissions.
  cbn [fold_left].
  repeat match goal with
         | |- context [if ?b then _ else _] => destruct b
         end; reflexivity.
Qed.

Lemma counters_when_print_change (b : bool) (tag path : string) (o n : Z) st :
  counters (V02.when b (V02.print_change tag path o n) st) = counters st.
Proof. destruct b; [apply counters_print_change | reflexivity]. Qed.

Lemma counters_emit (e : event) st : counters (V02.emit e st) = counters st.
Proof. reflexivity. Qed.

(** Lines 230-284 leave the counters alone or increment one of
    [files_changed] and [dirs_changed]. *)
Lemma change_mode_counters (path : string) (m : Z) (cf cd : bool) st :
  let st' := V02.change_mode OS path m cf cd st in
  counters st' = counters st
  \/ counters st'
     = (int_incr (V02.files_changed st), V02.dirs_changed st,
        V02.symlinks_skipped st, V02.symlinks_followed st,
        V02.symlink_errors st)
  \/ counters st'
     = (V02.files_changed st, int_incr (V02.dirs_changed st),
        V02.symlinks_skipped st, V02.symlinks_followed st,
        V02.symlink_errors st).
Proof.
  unfold V02.change_mode, V02.do_chmod. cbv zeta.
  repeat match goal with
         | |- context [match chmod ?o ?w ?p ?n with _ => _ end] =>
             destruct (chmod o w p n)
         | |- context [if ?b then _ else _] => destruct b
         end;
    rewrite ?counters_when_printf, ?counters_when_eprintf,
      ?counters_when_print_change;
    auto.
Qed.


End StateFacts.

(** ** The symlink policy *)



(** ** Entries that already have the requested mode *)

Lemma change_mode_noop {world : Type} (OS : posix world) (path : string)
    (m : Z) (cf cd : bool) (st : V02.state world) :
  V02.apply_wildcard_mode (V02.wildcard_mode st) (Z.land m 511)
  = Z.land m 511 ->
  let st' := V02.change_mode OS path m cf cd st in
  chmods (V02.trace st') = chmods (V02.trace st)
  /\ counters st' = counters st
  /\ V02.fs st' = V02.fs st.
Proof.
  intros Hsame. unfold V02.change_mode. cbv zeta.
  rewrite Hsame, Z.eqb_refl.
  repeat match goal with
         | |- context [if ?b then _ else _] => destruct b
         end;
    rewrite ?chmods_when_printf, ?counters_when_printf, ?fs_when_printf;
    auto.
Qed.

(** C6. When the nine-bit mode of an entry (of the target, for a followed
    symbolic link) already equals what [apply_wildcard_mode] returns for
    it, [change_permissions] calls no [chmod], leaves the file system as it
    was and increments neither [files_changed] nor [dirs_changed]. *)
Theorem unchanged_mode_is_noop {world : Type} (OS : posix world)
    (path : string) (cf cd : bool) (policy : V02.symlink_mode_t)
    (st : V02.state world) (m : Z)
    (Hentry : entry_mode OS path policy st = Some m)
    (Hsame : V02.apply_wildcard_mode (V02.wildcard_mode st) (Z.land m 511)
             = Z.land m 511) :
  let st' := V02.change_permissions OS path cf cd policy st in
  chmods (V02.trace st') = chmods (V02.trace st)
  /\ V02.files_changed st' = V02.files_changed st
  /\ V02.dirs_changed st' = V02.dirs_changed st
  /\ V02.fs st' = V02.fs st.
Proof.
  unfold entry_mode in Hentry. unfold V02.change_permissions. cbv zeta.
  destruct (lstat OS (V02.fs st) path) as [lm|e]; [|discriminate].
  destruct (S_ISLNK lm).
  - destruct policy; try discriminate.
    destruct (stat OS (V02.fs st) path) as [tm|e]; [|discriminate].
    injection Hentry as ->.
    set (st1 := V02.when _ _ _).
    assert (Hw : V02.wildcard_mode st1 = V02.wildcard_mode st)
      by (subst st1; now destruct (V02.is_verbose _)).
    rewrite <- Hw in Hsame.
    destruct (change_mode_noop OS path m cf cd st1 Hsame) as (Hc & Hn & Hf).
    rewrite Hc, Hf. unfold counters in Hn.
    injection Hn as -> -> _ _ _.
    subst st1. rewrite chmods_when_printf, fs_when_printf.
    now destruct (V02.is_verbose _).
  - injection Hentry as ->.
    destruct (change_mode_noop OS path m cf cd st Hsame) as (Hc & Hn & Hf).
    unfold counters in Hn. injection Hn as -> -> _ _ _. auto.
Qed.

(** The specification 755 on the directory [/r], whose mode is 755. *)
Lemma unchanged_mode_is_noop_witness :
  let st := toy_state ["7"; "5"; "5"; NUL]%char in
  let st' := V02.change_permissions Toy.OS "/r" false true V02.SYMLINK_SKIP st in
  V02.apply_wildcard_mode (V02.wildcard_mode st) 493 = 493
  /\ chmods (V02.trace st') = chmods (V02.trace st)
  /\ V02.files_changed st' = V02.files_changed st
  /\ V02.dirs_changed st' = V02.dirs_changed st
  /\ V02.fs st' = V02.fs st.
Proof.
  split; [reflexivity|].
  exact (unchanged_mode_is_noop Toy.OS "/r" false true V02.SYMLINK_SKIP
           (toy_state ["7"; "5"; "5"; NUL]%char) 16877 eq_refl eq_refl).
Defined.

(** ** A failing [chmod] *)

(** In version 0.2, when the change is attempted and [chmod] fails, no
    counter moves, and one line goes to the error stream unless the output
    mode is silent. *)
Lemma v02_chmod_failure_reported {world : Type} (OS : posix world)
    (path : string) (cf cd : bool) (policy : V02.symlink_mode_t)
    (st : V02.state world) (m e : Z) :
  entry_mode OS path policy st = Some m ->
  V02.apply_wildcard_mode (V02.wildcard_mode st) (Z.land m 511)
  <> Z.land m 511 ->
  (S_ISDIR m && cd) || (S_ISREG m && cf) = true ->
  chmod OS (V02.fs st) path
    (V02.apply_wildcard_mode (V02.wildcard_mode st) (Z.land m 511)) = Fail e ->
  let st' := V02.change_permissions OS path cf cd policy st in
  V02.files_changed st' = V02.files_changed st
  /\ V02.dirs_changed st' = V02.dirs_changed st
  /\ V02.fs st' = V02.fs st
  /\ exists text,
       diagnostics (V02.trace st')
       = diagnostics (V02.trace st)
         ++ (if V02.is_silent (V02.output_mode st) then []
             else [Stderr text]).
Proof.
  intros Hentry Hdiff Htry Hfail.
  assert (Htail : forall st1 : V02.state world,
            V02.wildcard_mode st1 = V02.wildcard_mode st ->
            V02.fs st1 = V02.fs st ->
            V02.output_mode st1 = V02.output_mode st ->
            let st' := V02.change_mode OS path m cf cd st1 in
            V02.files_changed st' = V02.files_changed st1
            /\ V02.dirs_changed st' = V02.dirs_changed st1
            /\ V02.fs st' = V02.fs st1
            /\ exists text,
                 diagnostics (V02.trace st')
                 = diagnostics (V02.trace st1)
                   ++ (if V02.is_silent (V02.output_mode st) then []
                       else [Stderr text])).
  { intros st1 Hw Hf Ho. unfold V02.change_mode, V02.do_chmod. cbv zeta.
    rewrite Hw, Hf, Hfail, Ho.
    assert (Hne : (Z.land m 511
                   =? V02.apply_wildcard_mode (V02.wildcard_mode st)
                        (Z.land m 511)) = false)
      by (apply Z.eqb_neq; congruence).
    rewrite Hne.
    assert (Hreport : forall text,
              let st' :=
                V02.when
                  (negb (V02.is_silent
                           (V02.output_mode
                              (V02.emit (Chmod path
                                 (V02.apply_wildcard_mode
                                    (V02.wildcard_mode st) (Z.land m 511))
                                 false) st1))))
                  (V02.eprintf text)
                  (V02.emit (Chmod path
                     (V02.apply_wildcard_mode (V02.wildcard_mode st)
                        (Z.land m 511)) false) st1) in
              V02.files_changed st' = V02.files_changed st1
              /\ V02.dirs_changed st' = V02.dirs_changed st1
              /\ V02.fs st' = V02.fs st1
              /\ exists text',
                   diagnostics (V02.trace st')
                   = diagnostics (V02.trace st1)
                     ++ (if V02.is_silent (V02.output_mode st) then []
                         else [Stderr text'])).
    { intros text. cbn [V02.output_mode V02.emit]. rewrite Ho.
      destruct (V02.is_silent (V02.output_mode st)); cbn;
        (split; [reflexivity|]); (split; [reflexivity|]);
        (split; [reflexivity|]); exists text;
        rewrite ?diagnostics_app; cbn; rewrite ?app_nil_r; reflexivity. }
    rewrite <- Hf.
    destruct (S_ISDIR m && cd).
    - cbv beta iota. apply Hreport.
    - cbn in Htry. rewrite Htry. cbv beta iota. apply Hreport. }
  unfold entry_mode in Hentry. unfold V02.change_permissions. cbv zeta.
  destruct (lstat OS (V02.fs st) path) as [lm|e']; [|discriminate].
  destruct (S_ISLNK lm).
  - destruct policy; try discriminate.
    destruct (stat OS (V02.fs st) path) as [tm|e']; [|discriminate].
    injection Hentry as ->.
    set (st1 := V02.when _ _ _).
    assert (H1 : V02.wildcard_mode st1 = V02.wildcard_mode st
                 /\ V02.fs st1 = V02.fs st
                 /\ V02.output_mode st1 = V02.output_mode st
                 /\ V02.files_changed st1 = V02.files_changed st
                 /\ V02.dirs_changed st1 = V02.dirs_changed st
                 /\ diagnostics (V02.trace st1) = diagnostics (V02.trace st)).
    { subst st1. destruct (V02.is_verbose _); cbn;
        rewrite ?diagnostics_app; cbn; rewrite ?app_nil_r; auto 10. }
    destruct H1 as (Hw & Hf & Ho & Hfc & Hdc & Hdg).
    destruct (Htail st1 Hw Hf Ho) as (A & B & C & text & D).
    rewrite A, B, C, Hfc, Hdc, Hf. repeat split.
    exists text. now rewrite D, Hdg.
  - injection Hentry as ->.
    exact (Htail st eq_refl eq_refl eq_refl).
Qed.

(** C5 (the claim fails on version 0.1).  [rper -d -p 755 /r] on the small
    tree, where [chmod] is refused on the directory [/r/vault]: version
    0.1 attempts the change and writes nothing on the error stream under
    the default output flags, while version 0.2 reports the failure.
    [rper -s -p 644 /r], where [chmod] is refused on the file
    [/r/locked.txt]: version 0.1 writes nothing on the error stream under
    the quiet flag, version 0.2 reports the failure.  No version counts
    the failed change. *)
Theorem v01_chmod_failure_unreported :
  let observe01 (r : Z * V01.state Toy.world) :=
    (chmods (V01.trace (snd r)), diagnostics (V01.trace (snd r)),
     V01.files_changed (snd r), V01.dirs_changed (snd r)) in
  let observe02 (r : Z * V02.state Toy.world) :=
    (chmods (V02.trace (snd r)), diagnostics (V02.trace (snd r)),
     V02.files_changed (snd r), V02.dirs_changed (snd r)) in
  option_map observe01
    (V01.main Toy.OS 5 [("d"%char, ""); ("p"%char, "755")] ["/r"]
       (V01.initial_state Toy.tree))
  = Some ([Chmod "/r/vault" 493 false], [], 0, 0)
  /\ option_map observe02
       (V02.main Toy.OS 5 [("d"%char, ""); ("p"%char, "755")] ["/r"]
          (V02.initial_state Toy.tree))
     = Some ([Chmod "/r/vault" 493 false],
             [Stderr ("Error: Cannot change directory permissions /r/vault: "
                      ++ "Operation not permitted" ++ nl)%string], 0, 0)
  /\ option_map observe01
       (V01.main Toy.OS 5 [("s"%char, ""); ("p"%char, "644")] ["/r"]
          (V01.initial_state Toy.tree))
     = Some ([Chmod "/r/sub/b.txt" 420 true; Chmod "/r/locked.txt" 420 false],
             [], 1, 0)
  /\ option_map observe02
       (V02.main Toy.OS 5 [("s"%char, ""); ("p"%char, "644")] ["/r"]
          (V02.initial_state Toy.tree))
     = Some ([Chmod "/r/sub/b.txt" 420 true; Chmod "/r/locked.txt" 420 false],
             [Stderr ("Error: Cannot change file permissions /r/locked.txt: "
                      ++ "Operation not permitted" ++ nl)%string], 1, 0).
Proof. cbv zeta. repeat split; vm_compute; reflexivity. Qed.

(** ** Precedence of the output flags *)

(** C4 (the claim fails on the code).  With [-v] before [-s] on the
    command line, version 0.2 ends in the quiet output mode and version
    0.1 with both [verbose] and [suppress_output] set, so that neither
    prints the notice that verbose output shows for the unchanged file
    [/p/x.txt]; with [-s] before [-S], version 0.2 ends in the silent
    output mode.  Version 0.1 does let [-s] win over [-S] in both
    orders. *)
Theorem output_flags_depend_on_order :
  let p := ("p"%char, "644") in
  let v := ("v"%char, "") in
  let s := ("s"%char, "") in
  let S := ("S"%char, "") in
  let observe02 (r : Z * V02.state Toy.world) :=
    (V02.output_mode (snd r), V02.trace (snd r)) in
  let observe01 (r : Z * V01.state Toy.world) :=
    (V01.verbose (snd r), V01.suppress_output (snd r),
     V01.suppress_all_output (snd r), V01.trace (snd r)) in
  let summary :=
    [Stdout ("Operation completed." ++ nl)%string;
     Stdout ("Files changed: 0" ++ nl)%string;
     Stdout ("Directories changed: 0" ++ nl)%string] in
  let notice := Stdout ("(F -> S) /p/x.txt" ++ nl)%string in
  option_map observe02
    (V02.main Toy.OS 5 [v; s; p] ["/p"] (V02.initial_state Toy.plain))
  = Some (V02.OUTPUT_QUIET, summary)
  /\ option_map observe02
       (V02.main Toy.OS 5 [s; v; p] ["/p"] (V02.initial_state Toy.plain))
     = Some (V02.OUTPUT_VERBOSE, notice :: summary)
  /\ option_map observe02
       (V02.main Toy.OS 5 [s; S; p] ["/p"] (V02.initial_state Toy.plain))
     = Some (V02.OUTPUT_SILENT, [])
  /\ option_map observe01
       (V01.main Toy.OS 5 [v; s; p] ["/p"] (V01.initial_state Toy.plain))
     = Some (true, true, false, summary)
  /\ option_map observe01
       (V01.main Toy.OS 5 [s; S; p] ["/p"] (V01.initial_state Toy.plain))
     = Some (false, true, false, summary)
  /\ option_map observe01
       (V01.main Toy.OS 5 [S; s; p] ["/p"] (V01.initial_state Toy.plain))
     = Some (false, true, false, summary).
Proof. cbv zeta. repeat split; vm_compute; reflexivity. Qed.

(** ** The run summary *)

Lemma trace_print_lines {world : Type} (lines : list string)
    (st : V02.state world) :
  V02.trace (V02.print_lines lines st) = V02.trace st ++ map Stdout lines.
Proof.
  unfold V02.print_lines. revert st.
  induction lines as [|l lines IH]; intros st; cbn [fold_left map].
  - now rewrite app_nil_r.
  - rewrite IH. cbn. now rewrite <- app_assoc.
Qed.

Lemma counters_print_lines {world : Type} (lines : list string)
    (st : V02.state world) :
  counters (V02.print_lines lines st) = counters st.
Proof.
  unfold V02.print_lines. revert st.
  induction lines as [|l lines IH]; intros st; cbn [fold_left].
  - reflexivity.
  - now rewrite IH.
Qed.

(** C8 as stated fails: [rper -p 644 /p] on a tree without symbolic
    links runs under the skip policy and the normal output mode, and its
    summary has no line for the symlinks-skipped counter. *)
Lemma summary_omits_zero_counter :
  exists st',
    V02.main Toy.OS 5 [("p"%char, "644")] ["/p"] (V02.initial_state Toy.plain)
    = Some (EXIT_SUCCESS, st')
    /\ V02.output_mode st' = V02.OUTPUT_NORMAL
    /\ V02.symlink_mode st' = V02.SYMLINK_SKIP
    /\ ~ In (Stdout (policy_line st')) (V02.trace st').
Proof.
  eexists. split; [vm_compute; reflexivity|].
  split; [reflexivity|]. split; [reflexivity|].
  vm_compute. intros H.
  repeat (destruct H as [H|H]; [discriminate H|]). exact H.
Qed.

(** C8, amended.  When [main] reaches the walk and the walk returns, it
    exits with success after appending the summary to the trace, without
    touching the counters.  The summary is empty in the silent output
    mode.  Otherwise it holds the files-changed and the directories-changed
    lines, and a symlink line exactly when the counter of the active
    policy is positive: that line is then the one of the active policy,
    and no line of another policy is ever in it. *)
Theorem final_summary {world : Type} (OS : posix world) (fuel : nat)
    (opts : list (ascii * string)) (directory : string)
    (rest : list string) (st st1 st2 : V02.state world) (l : V02.locals)
    (Hopts : V02.getopt_loop opts V02.initial_locals st = inr (l, st1))
    (Hperm : V02.perm_flag l = true)
    (Hwalk : V02.process_directory OS fuel directory (V02.recursive l)
               (effective_files l) (V02.change_dirs l) (V02.include_dir l)
               (V02.symlink_mode st1) st1 = Some st2) :
  exists st3 summary,
    V02.main OS fuel opts (directory :: rest) st = Some (EXIT_SUCCESS, st3)
    /\ V02.trace st3 = V02.trace st2 ++ map Stdout summary
    /\ counters st3 = counters st2
    /\ (V02.output_mode st2 = V02.OUTPUT_SILENT -> summary = [])
    /\ (V02.output_mode st2 <> V02.OUTPUT_SILENT ->
        In (files_line st2) summary
        /\ In (dirs_line st2) summary
        /\ (In (skipped_line st2) summary <->
            V02.symlink_mode st2 = V02.SYMLINK_SKIP
            /\ 0 < V02.symlinks_skipped st2)
        /\ (In (followed_line st2) summary <->
            V02.symlink_mode st2 = V02.SYMLINK_FOLLOW
            /\ 0 < V02.symlinks_followed st2)
        /\ (In (errors_line st2) summary <->
            V02.symlink_mode st2 = V02.SYMLINK_ERROR
            /\ 0 < V02.symlink_errors st2)
        /\ (In (policy_line st2) summary <-> 0 < policy_counter st2)).
Proof.
  exists (V02.print_summary st2), (V02.summary_lines st2).
  split.
  { unfold V02.main. rewrite Hopts, Hperm. cbn [negb].
    unfold effective_files in Hwalk. now rewrite Hwalk. }
  split; [apply trace_print_lines|].
  split; [apply counters_print_lines|].
  unfold V02.summary_lines, V02.summary_symlink_line.
  split.
  { intros ->. reflexivity. }
  intros Hloud.
  assert (Hs : V02.is_silent (V02.output_mode st2) = false)
    by (destruct (V02.output_mode st2); try reflexivity; congruence).
  rewrite Hs.
  unfold policy_line, policy_counter.
  unfold files_line, dirs_line, skipped_line, followed_line, errors_line.
  split; [cbn; auto|]. split; [cbn; auto|].
  destruct (V02.symlink_mode st2);
    [ destruct (V02.symlinks_skipped st2 >? 0) eqn:E
    | destruct (V02.symlinks_followed st2 >? 0) eqn:E
    | destruct (V02.symlink_errors st2 >? 0) eqn:E ];
    rewrite Z.gtb_ltb in E;
    (apply Z.ltb_lt in E || apply Z.ltb_ge in E);
    (split; [|split; [|split]]); split;
    solve
      [ intros Hin; cbn in Hin; decompose [or] Hin;
        first [ discriminate | contradiction | now split | assumption ]
      | intros [Hm Hpos];
        first [ discriminate Hm | lia | cbn; auto 6 ]
      | intros Hpos; first [ lia | cbn; auto 6 ] ].
Qed.

Lemma final_summary_witness :
  exists st3,
    V02.main Toy.OS 5 [("p"%char, "644")] ["/r"] (V02.initial_state Toy.tree)
    = Some (EXIT_SUCCESS, st3)
    /\ counters st3 = counters toy_after_walk
    /\ In (Stdout (skipped_line toy_after_walk)) (V02.trace st3).
Proof.
  destruct (final_summary Toy.OS 5 [("p"%char, "644")] "/r" []
              (V02.initial_state Toy.tree)
              (toy_state ["6"; "4"; "4"; NUL]%char) toy_after_walk
              (V02.mkLocals false false true false true)
              eq_refl eq_refl eq_refl)
    as (st3 & summary & Hmain & Htrace & Hcount & _ & Hloud).
  exists st3. split; [exact Hmain|]. split; [exact Hcount|].
  rewrite Htrace. apply in_or_app. right. apply in_map.
  apply (proj1 (proj2 (proj2 (Hloud ltac:(discriminate))))).
  split; [reflexivity | reflexivity].
Defined.

(** ** The counters never decrease *)



Lemma counters_step_refl {world : Type} (st : V02.state world) :
  counters_step st st.
Proof. unfold counters_step, kept_or_incremented. auto 10. Qed.

(** Every per-entry operation is one step on the counters. *)
Lemma change_mode_step {world : Type} (OS : posix world)
    (path : string) (m : Z) (cf cd : bool) (st : V02.state world) :
  counters_step st (V02.change_mode OS path m cf cd st).
Proof.
  unfold counters_step, kept_or_incremented.
  destruct (change_mode_counters OS path m cf cd st) as [H|[H|H]];
    unfold counters in H; injection H as -> -> -> -> ->; auto 10.
Qed.

Lemma counters_step_eq {world : Type} (a b c : V02.state world) :
  counters b = counters c -> counters_step a b -> counters_step a c.
Proof.
  unfold counters, counters_step. intros [= -> -> -> -> ->]. auto.
Qed.

Lemma change_permissions_step {world : Type} (OS : posix world)
    (path : string) (cf cd : bool) (policy : V02.symlink_mode_t)
    (st : V02.state world) :
  counters_step st (V02.change_permissions OS path cf cd policy st).
Proof.
  unfold V02.change_permissions.
  destruct (lstat OS (V02.fs st) path) as [m|e].
  - destruct (S_ISLNK m); [|apply change_mode_step].
    destruct policy.
    + eapply counters_step_eq;
        [symmetry; apply counters_when_printf|].
      unfold counters_step, kept_or_incremented. cbn. auto 10.
    + destruct (stat OS (V02.fs st) path) as [tm|e].
      * set (st1 := V02.when _ _ _).
        assert (H1 : counters st1
                     = (V02.files_changed st, V02.dirs_changed st,
                        V02.symlinks_skipped st,
                        int_incr (V02.symlinks_followed st),
                        V02.symlink_errors st))
          by (subst st1; now rewrite counters_when_printf).
        unfold counters in H1. injection H1 as F D K W E.
        unfold counters_step, kept_or_incremented.
        destruct (change_mode_counters OS path tm cf cd st1) as [H|[H|H]];
          unfold counters in H; injection H as -> -> -> -> ->;
          rewrite ?F, ?D, ?K, ?W, ?E; auto 10.
      * eapply counters_step_eq;
          [symmetry; apply counters_when_eprintf|].
        apply counters_step_refl.
    + eapply counters_step_eq;
        [symmetry; apply counters_when_eprintf|].
      unfold counters_step, kept_or_incremented. cbn. auto 10.
  - eapply counters_step_eq;
      [symmetry; apply counters_when_eprintf|].
    apply counters_step_refl.
Qed.



(** ** The counters along a whole walk *)

Lemma counters_steps_one {world : Type} (a b : V02.state world) :
  counters_step a b -> counters_steps a b.
Proof. intros H. eapply steps_more; [exact H | apply steps_done]. Qed.

Lemma counters_steps_trans {world : Type} (a b c : V02.state world) :
  counters_steps a b -> counters_steps b c -> counters_steps a c.
Proof.
  induction 1 as [a|a b' b Hab Hbb IH]; intros Hbc.
  - exact Hbc.
  - eapply steps_more; [exact Hab | now apply IH].
Qed.

Section Walk.

Context {world : Type} (OS : posix world).

Lemma readdir_loop_steps
    (descend : string -> V02.state world -> option (V02.state world))
    (dir_path : string) (recursive cf cd : bool)
    (policy : V02.symlink_mode_t) :
  (forall path s s', descend path s = Some s' -> counters_steps s s') ->
  forall entries st st',
    V02.readdir_loop OS descend dir_path recursive cf cd policy entries st
    = Some st' ->
    counters_steps st st'.
Proof.
  intros Hdescend entries.
  induction entries as [|entry rest IH]; intros st st' Hloop;
    cbn [V02.readdir_loop] in Hloop.
  - injection Hloop as <-. apply steps_done.
  - destruct (_ || _) in Hloop; [now apply IH|].
    set (path := snprintf 1024 _) in Hloop.
    pose proof (change_permissions_step OS path cf cd policy st) as Hstep.
    destruct (recursive && is_DT_DIR (d_type entry)).
    + destruct (descend path _) as [st1|] eqn:Hd; [|discriminate].
      eapply steps_more; [exact Hstep|].
      eapply counters_steps_trans; [exact (Hdescend _ _ _ Hd)|].
      now apply IH.
    + eapply steps_more; [exact Hstep|]. now apply IH.
Qed.

(** Whatever the depth bound, a walk that returns has only left the
    counters alone or incremented them, one operation after the other. *)
Lemma process_directory_steps (fuel : nat) :
  forall (dir_path : string) (recursive cf cd include_dir : bool)
         (policy : V02.symlink_mode_t) (st st' : V02.state world),
    V02.process_directory OS fuel dir_path recursive cf cd include_dir
      policy st = Some st' ->
    counters_steps st st'.
Proof.
  induction fuel as [|fuel IH]; intros dir_path recursive cf cd include_dir
    policy st st' Hwalk; cbn [V02.process_directory] in Hwalk.
  - discriminate.
  - set (st0 := V02.when _ _ st) in Hwalk.
    assert (H0 : counters_steps st st0).
    { subst st0. destruct (cd && include_dir); cbn [V02.when].
      - apply counters_steps_one, change_permissions_step.
      - apply steps_done. }
    eapply counters_steps_trans; [exact H0|].
    destruct (opendir OS (V02.fs st0) dir_path) as [entries|e].
    + eapply readdir_loop_steps; [|exact Hwalk].
      intros path s s' Hd. exact (IH _ _ _ _ _ _ _ _ Hd).
    + injection Hwalk as <-. apply counters_steps_one.
      eapply counters_step_eq; [symmetry; apply counters_when_eprintf|].
      apply counters_step_refl.
Qed.

(** Without recursion the walk returns with a depth bound of one. *)
Lemma process_directory_flat_returns (dir_path : string)
    (cf cd include_dir : bool) (policy : V02.symlink_mode_t)
    (st : V02.state world) :
  exists st',
    V02.process_directory OS 1 dir_path false cf cd include_dir policy st
    = Some st'.
Proof.
  cbn [V02.process_directory].
  set (st0 := V02.when _ _ st). clearbody st0.
  destruct (opendir OS (V02.fs st0) dir_path) as [entries|e];
    [|eexists; reflexivity].
  revert st0. induction entries as [|entry rest IH]; intros st0;
    cbn [V02.readdir_loop].
  - eexists; reflexivity.
  - destruct (_ || _); [apply IH|]. cbn [andb]. apply IH.
Qed.

Lemma readdir_loop_descend_mono
    (d1 d2 : string -> V02.state world -> option (V02.state world))
    (dir_path : string) (recursive cf cd : bool)
    (policy : V02.symlink_mode_t) :
  (forall path s s', d1 path s = Some s' -> d2 path s = Some s') ->
  forall entries st st',
    V02.readdir_loop OS d1 dir_path recursive cf cd policy entries st
    = Some st' ->
    V02.readdir_loop OS d2 dir_path recursive cf cd policy entries st
    = Some st'.
Proof.
  intros Hmono entries.
  induction entries as [|entry rest IH]; intros st st' Hloop;
    cbn [V02.readdir_loop] in *.
  - exact Hloop.
  - destruct (_ || _); [now apply IH|].
    destruct (recursive && is_DT_DIR (d_type entry)); [|now apply IH].
    destruct (d1 _ _) as [st1|] eqn:Hd; [|discriminate].
    rewrite (Hmono _ _ _ Hd). now apply IH.
Qed.

(** A walk that returns within a depth bound returns the same state within
    every larger bound. *)
Lemma process_directory_more_fuel (fuel : nat) :
  forall (dir_path : string) (recursive cf cd include_dir : bool)
         (policy : V02.symlink_mode_t) (st st' : V02.state world),
    V02.process_directory OS fuel dir_path recursive cf cd include_dir
      policy st = Some st' ->
    V02.process_directory OS (S fuel) dir_path recursive cf cd include_dir
      policy st = Some st'.
Proof.
  induction fuel as [|fuel IH]; intros dir_path recursive cf cd include_dir
    policy st st' Hwalk.
  - discriminate.
  - cbn [V02.process_directory] in Hwalk.
    change (V02.process_directory OS (S (S fuel)) dir_path recursive cf cd
              include_dir policy st)
      with (let st0 :=
              V02.when (cd && include_dir)
                (V02.change_permissions OS dir_path false true policy) st in
            match opendir OS (V02.fs st0) dir_path with
            | Fail e =>
                Some (V02.when (negb (V02.is_silent (V02.output_mode st0)))
                        (V02.eprintf
                           ("Error: Cannot open directory " ++ dir_path
                            ++ ": " ++ strerror OS e ++ nl)%string) st0)
            | Ok entries =>
                V02.readdir_loop OS
                  (fun path st1 =>
                     V02.process_directory OS (S fuel) path recursive cf cd
                       include_dir policy st1)
                  dir_path recursive cf cd policy entries st0
            end).
    cbv zeta.
    destruct (opendir OS _ dir_path) as [entries|e]; [|exact Hwalk].
    eapply readdir_loop_descend_mono; [|exact Hwalk].
    intros path s s' Hd. now apply IH.
Qed.

End Walk.

(** * Further properties *)

(** ** Printing as a list of events *)

Section Printing.

Context {world : Type}.

Implicit Types st : V02.state world.

Lemma emit_all_app (l1 l2 : list event) st :
  emit_all (l1 ++ l2) st = emit_all l2 (emit_all l1 st).
Proof. unfold emit_all. apply fold_left_app. Qed.

Lemma trace_emit_all (evs : list event) st :
  V02.trace (emit_all evs st) = V02.trace st ++ evs.
Proof.
  unfold emit_all. revert st.
  induction evs as [|e evs IH]; intros st; cbn [fold_left].
  - now rewrite app_nil_r.
  - rewrite IH. cbn. now rewrite <- app_assoc.
Qed.

Lemma counters_emit_all (evs : list event) st :
  counters (emit_all evs st) = counters st.
Proof.
  unfold emit_all. revert st.
  induction evs as [|e evs IH]; intros st; cbn [fold_left];
    [reflexivity | now rewrite IH].
Qed.

Lemma fs_emit_all (evs : list event) st :
  V02.fs (emit_all evs st) = V02.fs st.
Proof.
  unfold emit_all. revert st.
  induction evs as [|e evs IH]; intros st; cbn [fold_left];
    [reflexivity | now rewrite IH].
Qed.

Lemma config_emit_all (evs : list event) st :
  config (emit_all evs st) = config st.
Proof.
  unfold emit_all. revert st.
  induction evs as [|e evs IH]; intros st; cbn [fold_left];
    [reflexivity | now rewrite IH].
Qed.

Lemma files_changed_emit_all (evs : list event) st :
  V02.files_changed (emit_all evs st) = V02.files_changed st.
Proof.
  unfold emit_all. revert st.
  induction evs as [|e evs IH]; intros st; cbn [fold_left];
    [reflexivity | now rewrite IH].
Qed.

Lemma dirs_changed_emit_all (evs : list event) st :
  V02.dirs_changed (emit_all evs st) = V02.dirs_changed st.
Proof.
  unfold emit_all. revert st.
  induction evs as [|e evs IH]; intros st; cbn [fold_left];
    [reflexivity | now rewrite IH].
Qed.

Lemma symlinks_skipped_emit_all (evs : list event) st :
  V02.symlinks_skipped (emit_all evs st) = V02.symlinks_skipped st.
Proof.
  unfold emit_all. revert st.
  induction evs as [|e evs IH]; intros st; cbn [fold_left];
    [reflexivity | now rewrite IH].
Qed.

Lemma symlinks_followed_emit_all (evs : list event) st :
  V02.symlinks_followed (emit_all evs st) = V02.symlinks_followed st.
Proof.
  unfold emit_all. revert st.
  induction evs as [|e evs IH]; intros st; cbn [fold_left];
    [reflexivity | now rewrite IH].
Qed.

Lemma symlink_errors_emit_all (evs : list event) st :
  V02.symlink_errors (emit_all evs st) = V02.symlink_errors st.
Proof.
  unfold emit_all. revert st.
  induction evs as [|e evs IH]; intros st; cbn [fold_left];
    [reflexivity | now rewrite IH].
Qed.

Lemma wildcard_mode_emit_all (evs : list event) st :
  V02.wildcard_mode (emit_all evs st) = V02.wildcard_mode st.
Proof.
  unfold emit_all. revert st.
  induction evs as [|e evs IH]; intros st; cbn [fold_left];
    [reflexivity | now rewrite IH].
Qed.

Lemma output_mode_emit_all (evs : list event) st :
  V02.output_mode (emit_all evs st) = V02.output_mode st.
Proof.
  unfold emit_all. revert st.
  induction evs as [|e evs IH]; intros st; cbn [fold_left];
    [reflexivity | now rewrite IH].
Qed.

Lemma symlink_mode_emit_all (evs : list event) st :
  V02.symlink_mode (emit_all evs st) = V02.symlink_mode st.
Proof.
  unfold emit_all. revert st.
  induction evs as [|e evs IH]; intros st; cbn [fold_left];
    [reflexivity | now rewrite IH].
Qed.

Lemma printf_emit_all (text : string) st :
  V02.printf text st = emit_all [Stdout text] st.
Proof. reflexivity. Qed.

Lemma eprintf_emit_all (text : string) st :
  V02.eprintf text st = emit_all [Stderr text] st.
Proof. reflexivity. Qed.

Lemma when_emit_all (b : bool) (evs : list event) st :
  V02.when b (emit_all evs) st = emit_all (if b then evs else []) st.
Proof. destruct b; reflexivity. Qed.

Lemma when_printf_emit_all (b : bool) (text : string) st :
  V02.when b (V02.printf text) st
  = emit_all (if b then [Stdout text] else []) st.
Proof. destruct b; reflexivity. Qed.

Lemma when_eprintf_emit_all (b : bool) (text : string) st :
  V02.when b (V02.eprintf text) st
  = emit_all (if b then [Stderr text] else []) st.
Proof. destruct b; reflexivity. Qed.

Lemma print_lines_emit_all (lines : list string) st :
  V02.print_lines lines st = emit_all (map Stdout lines) st.
Proof.
  unfold V02.print_lines, emit_all. revert st.
  induction lines as [|l lines IH]; intros st; cbn [fold_left map];
    [reflexivity | now rewrite IH].
Qed.

(** [print_wildcard_mode] writes the three characters of the array, the
    wildcard included. *)
Lemma print_wildcard_mode_emit_all st :
  V02.print_wildcard_mode st
  = emit_all
      [Stdout (format_c (char_at (V02.wildcard_mode st) 0));
       Stdout (format_c (char_at (V02.wildcard_mode st) 1));
       Stdout (format_c (char_at (V02.wildcard_mode st) 2))] st.
Proof.
  unfold V02.print_wildcard_mode. cbn [fold_left].
  assert (Hstar : forall (c : ascii) (s : V02.state world),
            (if Ascii.eqb c star then V02.printf "*" s
             else V02.printf (format_c c) s)
            = V02.printf (format_c c) s).
  { intros c s. destruct (Ascii.eqb c star) eqn:E; [|reflexivity].
    apply Ascii.eqb_eq in E. now subst c. }
  rewrite !Hstar. reflexivity.
Qed.

Lemma print_change_emit_all (tag path : string) (o n : Z) st :
  V02.print_change tag path o n st
  = emit_all (change_events tag path o n (V02.wildcard_mode st)) st.
Proof.
  unfold V02.print_change, V02.print_permissions.
  rewrite print_wildcard_mode_emit_all. reflexivity.
Qed.

Lemma when_print_change_emit_all (b : bool) (tag path : string) (o n : Z) st :
  V02.when b (V02.print_change tag path o n) st
  = emit_all
      (if b then change_events tag path o n (V02.wildcard_mode st) else [])
      st.
Proof. destruct b; [apply print_change_emit_all | reflexivity]. Qed.

End Printing.

(** ** One entry, case by case *)

Ltac state_simpl :=
  repeat
    (cbn [V02.files_changed V02.dirs_changed V02.symlinks_skipped
          V02.symlinks_followed V02.symlink_errors V02.wildcard_mode
          V02.output_mode V02.symlink_mode V02.fs V02.trace
          V02.incr_files_changed V02.incr_dirs_changed
          V02.incr_symlinks_skipped V02.incr_symlinks_followed
          V02.incr_symlink_errors V02.set_fs V02.emit];
     rewrite ?files_changed_emit_all, ?dirs_changed_emit_all,
       ?symlinks_skipped_emit_all, ?symlinks_followed_emit_all,
       ?symlink_errors_emit_all, ?wildcard_mode_emit_all,
       ?output_mode_emit_all, ?symlink_mode_emit_all, ?fs_emit_all,
       ?trace_emit_all).

Ltac entry_cases :=
  unfold V02.change_permissions, V02.change_mode, V02.do_chmod; cbv zeta;
  rewrite ?when_printf_emit_all, ?when_eprintf_emit_all,
    ?when_print_change_emit_all;
  state_simpl;
  repeat match goal with
         | |- context [match lstat ?o ?w ?p with _ => _ end] =>
             destruct (lstat o w p) eqn:?
         | |- context [if ?b then ?x else _] =>
             match type of x with
             | V02.state _ => destruct b eqn:?
             end
         | |- context [match ?m with
                       | V02.SYMLINK_SKIP => _
                       | V02.SYMLINK_FOLLOW => _
                       | V02.SYMLINK_ERROR => _
                       end] => destruct m
         | |- context [match stat ?o ?w ?p with _ => _ end] =>
             destruct (stat o w p) eqn:?
         | |- context [match chmod ?o ?w ?p ?n with _ => _ end] =>
             destruct (chmod o w p n) eqn:?
         end;
  rewrite ?when_printf_emit_all, ?when_eprintf_emit_all,
    ?when_print_change_emit_all;
  state_simpl.

Section Entry.

Context {world : Type} (OS : posix world).

Implicit Types st : V02.state world.

Lemma change_permissions_config (path : string) (cf cd : bool)
    (policy : V02.symlink_mode_t) st :
  config (V02.change_permissions OS path cf cd policy st) = config st.
Proof.
  unfold config. entry_cases; reflexivity.
Qed.

(** Under a policy, [change_permissions] leaves the symlink counters of
    the two other policies alone. *)
Lemma change_permissions_policy_counters (path : string) (cf cd : bool)
    (policy : V02.symlink_mode_t) st :
  let st' := V02.change_permissions OS path cf cd policy st in
  (policy <> V02.SYMLINK_SKIP ->
   V02.symlinks_skipped st' = V02.symlinks_skipped st)
  /\ (policy <> V02.SYMLINK_FOLLOW ->
      V02.symlinks_followed st' = V02.symlinks_followed st)
  /\ (policy <> V02.SYMLINK_ERROR ->
      V02.symlink_errors st' = V02.symlink_errors st).
Proof.
  entry_cases; repeat split; intros Hp; try reflexivity; congruence.
Qed.

(** A kind that is not requested is not counted. *)
Lemma change_permissions_unrequested_counters (path : string) (cf cd : bool)
    (policy : V02.symlink_mode_t) st :
  let st' := V02.change_permissions OS path cf cd policy st in
  (cf = false -> V02.files_changed st' = V02.files_changed st)
  /\ (cd = false -> V02.dirs_changed st' = V02.dirs_changed st).
Proof.
  entry_cases; split; intros ->; try reflexivity;
    rewrite ?andb_false_r in *; discriminate.
Qed.

(** The trace only grows. *)
Lemma change_permissions_trace_grows (path : string) (cf cd : bool)
    (policy : V02.symlink_mode_t) st :
  exists evs,
    V02.trace (V02.change_permissions OS path cf cd policy st)
    = V02.trace st ++ evs.
Proof.
  entry_cases;
    first [ exists []; now rewrite app_nil_r
          | rewrite <- ?app_assoc; eexists; reflexivity ].
Qed.

Lemma outputs_app (t u : list event) : outputs (t ++ u) = outputs t ++ outputs u.
Proof. apply filter_app. Qed.

Lemma stdouts_app (t u : list event) : stdouts (t ++ u) = stdouts t ++ stdouts u.
Proof. apply filter_app. Qed.

(** In the silent output mode nothing is written. *)
Lemma change_permissions_silent (path : string) (cf cd : bool)
    (policy : V02.symlink_mode_t) st :
  V02.output_mode st = V02.OUTPUT_SILENT ->
  outputs (V02.trace (V02.change_permissions OS path cf cd policy st))
  = outputs (V02.trace st).
Proof.
  intros Hmode. entry_cases;
    rewrite ?Hmode in *;
    cbn [V02.is_silent V02.is_quiet V02.is_normal V02.is_verbose
         negb andb orb] in *;
    try discriminate;
    rewrite ?outputs_app; cbn [outputs filter is_chmod negb];
    rewrite ?app_nil_r; reflexivity.
Qed.

(** In the quiet output mode nothing is written on the standard
    output. *)
Lemma change_permissions_quiet (path : string) (cf cd : bool)
    (policy : V02.symlink_mode_t) st :
  V02.output_mode st = V02.OUTPUT_QUIET ->
  stdouts (V02.trace (V02.change_permissions OS path cf cd policy st))
  = stdouts (V02.trace st).
Proof.
  intros Hmode. entry_cases;
    rewrite ?Hmode in *;
    cbn [V02.is_silent V02.is_quiet V02.is_normal V02.is_verbose
         negb andb orb] in *;
    try discriminate;
    rewrite ?stdouts_app; cbn [stdouts filter is_stdout];
    rewrite ?app_nil_r; reflexivity.
Qed.

Lemma chmods_if_stdout (b : bool) (text : string) :
  chmods (if b then [Stdout text] else []) = [].
Proof. now destruct b. Qed.

Lemma chmods_if_stderr (b : bool) (text : string) :
  chmods (if b then [Stderr text] else []) = [].
Proof. now destruct b. Qed.

Lemma chmods_if_change (b : bool) (tag path : string) (o n : Z)
    (w : list ascii) :
  chmods (if b then change_events tag path o n w else []) = [].
Proof. now destruct b. Qed.

(** One entry, one [chmod] at most: either nothing is attempted, and the
    file system and the two change counters stay; or the entry has a mode
    that differs from the requested one and a requested kind, [chmod] is
    called once on its path with the new mode, and exactly its success
    replaces the file system and increments the counter of the kind. *)
Lemma change_permissions_accounting (path : string) (cf cd : bool)
    (policy : V02.symlink_mode_t) st :
  let st' := V02.change_permissions OS path cf cd policy st in
  (chmods (V02.trace st') = chmods (V02.trace st)
   /\ V02.fs st' = V02.fs st
   /\ V02.files_changed st' = V02.files_changed st
   /\ V02.dirs_changed st' = V02.dirs_changed st)
  \/ exists m new_mode,
       entry_mode OS path policy st = Some m
       /\ new_mode
          = V02.apply_wildcard_mode (V02.wildcard_mode st) (Z.land m 511)
       /\ new_mode <> Z.land m 511
       /\ requested m cf cd = true
       /\ ((exists e,
              chmod OS (V02.fs st) path new_mode = Fail e
              /\ chmods (V02.trace st')
                 = chmods (V02.trace st) ++ [Chmod path new_mode false]
              /\ V02.fs st' = V02.fs st
              /\ V02.files_changed st' = V02.files_changed st
              /\ V02.dirs_changed st' = V02.dirs_changed st)
           \/ (exists w',
                 chmod OS (V02.fs st) path new_mode = Ok w'
                 /\ chmods (V02.trace st')
                    = chmods (V02.trace st) ++ [Chmod path new_mode true]
                 /\ V02.fs st' = w'
                 /\ if S_ISDIR m && cd
                    then V02.dirs_changed st' = int_incr (V02.dirs_changed st)
                         /\ V02.files_changed st' = V02.files_changed st
                    else V02.files_changed st'
                         = int_incr (V02.files_changed st)
                         /\ V02.dirs_changed st' = V02.dirs_changed st)).
Proof.
  unfold entry_mode, requested.
  entry_cases; cbv beta iota;
    rewrite ?chmods_app, ?chmods_if_stdout, ?chmods_if_stderr,
      ?chmods_if_change, ?app_nil_r;
    cbn [chmods filter is_chmod app];
    first
      [ left; repeat split; reflexivity
      | right; eexists; eexists;
        split; [reflexivity|]; split; [reflexivity|];
        repeat match goal with
               | H : _ && _ = _ |- _ => rewrite H
               end;
        cbn [orb];
        split;
        [ match goal with
          | H : (_ =? _) = false |- _ => apply Z.eqb_neq in H; congruence
          end |];
        split; [reflexivity|];
        first
          [ left; eexists; split; [eassumption|];
            repeat split; reflexivity
          | right; eexists; split; [eassumption|];
            repeat split; reflexivity ] ].
Qed.

End Entry.

(** ** Invariants of the walk *)

Section WalkInvariant.

Context {world : Type} (OS : posix world).

Variable R : V02.state world -> V02.state world -> Prop.
Variables (cf cd : bool) (policy : V02.symlink_mode_t).

Hypothesis R_refl : forall st, R st st.
Hypothesis R_trans : forall a b c, R a b -> R b c -> R a c.
Hypothesis R_entry :
  forall path st, R st (V02.change_permissions OS path cf cd policy st).
Hypothesis R_root :
  cd = true ->
  forall path st, R st (V02.change_permissions OS path false true policy st).
Hypothesis R_report :
  forall text st,
    R st (V02.when (negb (V02.is_silent (V02.output_mode st)))
            (V02.eprintf text) st).

Lemma readdir_loop_invariant
    (descend : string -> V02.state world -> option (V02.state world))
    (dir_path : string) (recursive : bool) :
  (forall path s s', descend path s = Some s' -> R s s') ->
  forall entries st st',
    V02.readdir_loop OS descend dir_path recursive cf cd policy entries st
    = Some st' ->
    R st st'.
Proof.
  intros Hdescend entries.
  induction entries as [|entry rest IH]; intros st st' Hloop;
    cbn [V02.readdir_loop] in Hloop.
  - injection Hloop as <-. apply R_refl.
  - destruct (_ || _) in Hloop; [now apply IH|].
    set (path := snprintf 1024 _) in Hloop.
    pose proof (R_entry path st) as Hstep.
    destruct (recursive && is_DT_DIR (d_type entry)).
    + destruct (descend path _) as [st1|] eqn:Hd; [|discriminate].
      eapply R_trans; [exact Hstep|].
      eapply R_trans; [exact (Hdescend _ _ _ Hd)|].
      now apply IH.
    + eapply R_trans; [exact Hstep|]. now apply IH.
Qed.

(** A relation between states that is reflexive and transitive and that
    every per-entry operation and every report of an unreadable directory
    respects holds between the start and the end of a walk. *)
Lemma process_directory_invariant (fuel : nat) :
  forall (dir_path : string) (recursive include_dir : bool)
         (st st' : V02.state world),
    V02.process_directory OS fuel dir_path recursive cf cd include_dir
      policy st = Some st' ->
    R st st'.
Proof.
  induction fuel as [|fuel IH]; intros dir_path recursive include_dir
    st st' Hwalk; cbn [V02.process_directory] in Hwalk.
  - discriminate.
  - set (st0 := V02.when _ _ st) in Hwalk.
    assert (H0 : R st st0).
    { subst st0. destruct cd; cbn [andb V02.when]; [|apply R_refl].
      destruct include_dir; cbn [V02.when]; [|apply R_refl].
      now apply R_root. }
    eapply R_trans; [exact H0|].
    destruct (opendir OS (V02.fs st0) dir_path) as [entries|e].
    + eapply readdir_loop_invariant; [|exact Hwalk].
      intros path s s' Hd. exact (IH _ _ _ _ _ Hd).
    + injection Hwalk as <-. apply R_report.
Qed.

End WalkInvariant.

Section WalkFacts.

Context {world : Type} (OS : posix world).

Implicit Types st : V02.state world.

Lemma config_when_eprintf (b : bool) (text : string) st :
  config (V02.when b (V02.eprintf text) st) = config st.
Proof. now destruct b. Qed.

(** X1. The walk leaves the configuration alone. *)
Theorem walk_keeps_configuration (fuel : nat) (dir_path : string)
    (recursive cf cd include_dir : bool) (policy : V02.symlink_mode_t)
    (st st' : V02.state world)
    (Hwalk : V02.process_directory OS fuel dir_path recursive cf cd
               include_dir policy st = Some st') :
  V02.wildcard_mode st' = V02.wildcard_mode st
  /\ V02.output_mode st' = V02.output_mode st
  /\ V02.symlink_mode st' = V02.symlink_mode st.
Proof.
  assert (H : config st' = config st).
  { apply (process_directory_invariant OS
             (fun a b => config b = config a) cf cd policy)
      with (fuel := fuel) (dir_path := dir_path) (recursive := recursive)
           (include_dir := include_dir); try exact Hwalk.
    - reflexivity.
    - intros a b c Hab Hbc. now rewrite Hbc.
    - intros. apply change_permissions_config.
    - intros. apply change_permissions_config.
    - intros. apply config_when_eprintf. }
  unfold config in H. now injection H as -> -> ->.
Qed.

End WalkFacts.

Section WalkFacts2.

Context {world : Type} (OS : posix world).

Implicit Types st : V02.state world.

Lemma counters_when_eprintf' (b : bool) (text : string) st :
  counters (V02.when b (V02.eprintf text) st) = counters st.
Proof. now destruct b. Qed.

(** X2. Under a policy, a whole walk leaves the symlink counters of the two
    other policies as they were. *)
Theorem walk_moves_one_symlink_counter (fuel : nat) (dir_path : string)
    (recursive cf cd include_dir : bool) (policy : V02.symlink_mode_t)
    (st st' : V02.state world)
    (Hwalk : V02.process_directory OS fuel dir_path recursive cf cd
               include_dir policy st = Some st') :
  (policy <> V02.SYMLINK_SKIP ->
   V02.symlinks_skipped st' = V02.symlinks_skipped st)
  /\ (policy <> V02.SYMLINK_FOLLOW ->
      V02.symlinks_followed st' = V02.symlinks_followed st)
  /\ (policy <> V02.SYMLINK_ERROR ->
      V02.symlink_errors st' = V02.symlink_errors st).
Proof.
  apply (process_directory_invariant OS
           (fun a b =>
              (policy <> V02.SYMLINK_SKIP ->
               V02.symlinks_skipped b = V02.symlinks_skipped a)
              /\ (policy <> V02.SYMLINK_FOLLOW ->
                  V02.symlinks_followed b = V02.symlinks_followed a)
              /\ (policy <> V02.SYMLINK_ERROR ->
                  V02.symlink_errors b = V02.symlink_errors a))
           cf cd policy)
    with (fuel := fuel) (dir_path := dir_path) (recursive := recursive)
         (include_dir := include_dir); try exact Hwalk.
  - auto.
  - intros a b c (A1 & A2 & A3) (B1 & B2 & B3).
    repeat split; intros Hp;
      [rewrite B1, A1 | rewrite B2, A2 | rewrite B3, A3]; auto.
  - intros. apply change_permissions_policy_counters.
  - intros. apply change_permissions_policy_counters.
  - intros text s. destruct (negb _); auto.
Qed.

(** X3. A walk that was not asked to change files leaves [files_changed] as it
    was, and one that was not asked to change directories leaves
    [dirs_changed] as it was. *)
Theorem walk_counts_requested_kinds_only (fuel : nat) (dir_path : string)
    (recursive cf cd include_dir : bool) (policy : V02.symlink_mode_t)
    (st st' : V02.state world)
    (Hwalk : V02.process_directory OS fuel dir_path recursive cf cd
               include_dir policy st = Some st') :
  (cf = false -> V02.files_changed st' = V02.files_changed st)
  /\ (cd = false -> V02.dirs_changed st' = V02.dirs_changed st).
Proof.
  apply (process_directory_invariant OS
           (fun a b =>
              (cf = false -> V02.files_changed b = V02.files_changed a)
              /\ (cd = false -> V02.dirs_changed b = V02.dirs_changed a))
           cf cd policy)
    with (fuel := fuel) (dir_path := dir_path) (recursive := recursive)
         (include_dir := include_dir); try exact Hwalk.
  - auto.
  - intros a b c (A1 & A2) (B1 & B2).
    split; intros Hp; [rewrite B1, A1 | rewrite B2, A2]; auto.
  - intros. apply change_permissions_unrequested_counters.
  - intros Hcd path s.
    destruct (change_permissions_unrequested_counters OS path false true
                policy s) as (Hf & _).
    split; [intros _; now apply Hf | intros Hc; congruence].
  - intros text s. destruct (negb _); auto.
Qed.

(** X4. In the silent output mode a walk writes nothing on either stream. *)
Theorem silent_walk_writes_nothing (fuel : nat) (dir_path : string)
    (recursive cf cd include_dir : bool) (policy : V02.symlink_mode_t)
    (st st' : V02.state world)
    (Hsilent : V02.output_mode st = V02.OUTPUT_SILENT)
    (Hwalk : V02.process_directory OS fuel dir_path recursive cf cd
               include_dir policy st = Some st') :
  outputs (V02.trace st') = outputs (V02.trace st).
Proof.
  assert (H : V02.output_mode st = V02.OUTPUT_SILENT ->
              V02.output_mode st' = V02.OUTPUT_SILENT
              /\ outputs (V02.trace st') = outputs (V02.trace st)).
  { apply (process_directory_invariant OS
             (fun a b =>
                V02.output_mode a = V02.OUTPUT_SILENT ->
                V02.output_mode b = V02.OUTPUT_SILENT
                /\ outputs (V02.trace b) = outputs (V02.trace a))
             cf cd policy)
      with (fuel := fuel) (dir_path := dir_path) (recursive := recursive)
           (include_dir := include_dir); try exact Hwalk.
    - auto.
    - intros a b c Hab Hbc Ha. destruct (Hab Ha) as (Hb & Eb).
      destruct (Hbc Hb) as (Hc & Ec). split; [exact Hc | now rewrite Ec].
    - intros path s Hs. split.
      + pose proof (change_permissions_config OS path cf cd policy s) as Hc.
        unfold config in Hc. injection Hc as _ -> _. exact Hs.
      + now apply change_permissions_silent.
    - intros _ path s Hs. split.
      + pose proof (change_permissions_config OS path false true policy s)
          as Hc.
        unfold config in Hc. injection Hc as _ -> _. exact Hs.
      + now apply change_permissions_silent.
    - intros text s Hs. rewrite Hs. cbn [V02.is_silent negb V02.when].
      auto. }
  exact (proj2 (H Hsilent)).
Qed.

(** X5. In the quiet output mode a walk writes nothing on the standard
    output. *)
Theorem quiet_walk_keeps_stdout (fuel : nat) (dir_path : string)
    (recursive cf cd include_dir : bool) (policy : V02.symlink_mode_t)
    (st st' : V02.state world)
    (Hquiet : V02.output_mode st = V02.OUTPUT_QUIET)
    (Hwalk : V02.process_directory OS fuel dir_path recursive cf cd
               include_dir policy st = Some st') :
  stdouts (V02.trace st') = stdouts (V02.trace st).
Proof.
  assert (H : V02.output_mode st = V02.OUTPUT_QUIET ->
              V02.output_mode st' = V02.OUTPUT_QUIET
              /\ stdouts (V02.trace st') = stdouts (V02.trace st)).
  { apply (process_directory_invariant OS
             (fun a b =>
                V02.output_mode a = V02.OUTPUT_QUIET ->
                V02.output_mode b = V02.OUTPUT_QUIET
                /\ stdouts (V02.trace b) = stdouts (V02.trace a))
             cf cd policy)
      with (fuel := fuel) (dir_path := dir_path) (recursive := recursive)
           (include_dir := include_dir); try exact Hwalk.
    - auto.
    - intros a b c Hab Hbc Ha. destruct (Hab Ha) as (Hb & Eb).
      destruct (Hbc Hb) as (Hc & Ec). split; [exact Hc | now rewrite Ec].
    - intros path s Hs. split.
      + pose proof (change_permissions_config OS path cf cd policy s) as Hc.
        unfold config in Hc. injection Hc as _ -> _. exact Hs.
      + now apply change_permissions_quiet.
    - intros _ path s Hs. split.
      + pose proof (change_permissions_config OS path false true policy s)
          as Hc.
        unfold config in Hc. injection Hc as _ -> _. exact Hs.
      + now apply change_permissions_quiet.
    - intros text s Hs. rewrite Hs. cbn [V02.is_silent negb V02.when].
      split; [exact Hs|].
      cbn. rewrite stdouts_app. cbn. apply app_nil_r. }
  exact (proj2 (H Hquiet)).
Qed.

End WalkFacts2.

(** ** The validator, case by case *)

Lemma validate_cases {world : Type} (optarg : string) (st : V02.state world) :
  V02.validate_and_process_octal optarg st
  = if in_grammar optarg then
      (0, V02.set_wildcard_mode
            (strncpy (V02.wildcard_mode st) (normalized optarg) 3) st)
    else
      (-1, V02.printf ("type `rper -h` for help" ++ nl ++ nl)%string
             (V02.eprintf
                ("Error: Invalid octal value: " ++ normalized optarg
                 ++ " (web search: unix octal permissions)" ++ nl ++ nl)%string
                st)).
Proof.
  unfold V02.validate_and_process_octal, in_grammar, normalized.
  change accepted_char with (char_in "4567*").
  destruct optarg as [|c0 [|c1 [|c2 [|c3 [|c4 rest]]]]]; try reflexivity.
  - cbn [String.length Nat.eqb andb str_tail list_ascii_of_string strspn].
    destruct (char_in "4567*" c0), (char_in "4567*" c1),
      (char_in "4567*" c2); reflexivity.
  - cbn [String.length Nat.eqb andb str_tail list_ascii_of_string
         String.get].
    destruct (Ascii.eqb c0 "0"); [|reflexivity].
    cbn [String.length Nat.eqb andb str_tail strspn Nat.sub].
    destruct (char_in "4567*" c1), (char_in "4567*" c2),
      (char_in "4567*" c3); reflexivity.
Qed.

(** ** The option loop *)

Section Options.

Context {world : Type}.

Implicit Types st : V02.state world.

Lemma chmods_map_stdout (lines : list string) :
  chmods (map Stdout lines) = [].
Proof. induction lines as [|l lines IH]; [reflexivity | exact IH]. Qed.

Ltac printed_frame :=
  unfold V02.print_usage, V02.print_about;
  rewrite ?print_lines_emit_all, ?printf_emit_all, ?eprintf_emit_all;
  repeat rewrite ?fs_emit_all, ?counters_emit_all, ?trace_emit_all;
  rewrite ?chmods_app, ?chmods_map_stdout;
  cbn [chmods filter is_chmod app];
  rewrite ?app_nil_r;
  repeat split; reflexivity.

(** What the option loop never touches: the file system, the counters and
    the [chmod] calls of the trace. *)
Lemma getopt_loop_frame (opts : list (ascii * string)) :
  forall (l : V02.locals) st,
    match V02.getopt_loop opts l st with
    | inl (_, st') | inr (_, st') =>
        V02.fs st' = V02.fs st
        /\ counters st' = counters st
        /\ chmods (V02.trace st') = chmods (V02.trace st)
    end.
Proof.
  induction opts as [|[opt optarg] rest IH]; intros l st;
    cbn [V02.getopt_loop].
  - auto.
  - rewrite validate_cases.
    repeat match goal with
           | |- context [if Ascii.eqb ?c ?d then _ else _] =>
               destruct (Ascii.eqb c d)
           | |- context [if ?a || ?b then _ else _] => destruct (a || b)
           | |- context [if in_grammar ?o then _ else _] =>
               destruct (in_grammar o); cbn [Z.eqb Pos.eqb]
           end;
      first
        [ apply IH
        | printed_frame
        | match goal with
          | |- context [V02.getopt_loop rest ?l' ?s'] =>
              specialize (IH l' s');
              destruct (V02.getopt_loop rest l' s') as [[rc s]|[l'' s]];
              exact IH
          end ].
Qed.

(** X6. The last verbosity flag and the last symlink flag decide. *)
Theorem last_flag_decides (opts : list (ascii * string)) :
  forall (l l' : V02.locals) st st'
         (Hloop : V02.getopt_loop opts l st = inr (l', st')),
    V02.output_mode st' = output_mode_after opts (V02.output_mode st)
    /\ V02.symlink_mode st'
       = symlink_mode_after opts (V02.symlink_mode st).
Proof.
  unfold output_mode_after, symlink_mode_after.
  induction opts as [|[opt optarg] rest IH]; intros l l' st st' Hloop;
    cbn [V02.getopt_loop] in Hloop.
  - injection Hloop as _ <-. auto.
  - cbn [fold_left fst]. rewrite validate_cases in Hloop.
    destruct (Ascii.eqb opt "a"); [discriminate|].
    destruct (Ascii.eqb opt "h" || Ascii.eqb opt "H"); [discriminate|].
    destruct (Ascii.eqb opt "d") eqn:Ed.
    { apply Ascii.eqb_eq in Ed. subst opt. cbn. exact (IH _ _ _ _ Hloop). }
    destruct (Ascii.eqb opt "f") eqn:Ef.
    { apply Ascii.eqb_eq in Ef. subst opt. cbn. exact (IH _ _ _ _ Hloop). }
    destruct (Ascii.eqb opt "i") eqn:Ei.
    { apply Ascii.eqb_eq in Ei. subst opt. cbn. exact (IH _ _ _ _ Hloop). }
    destruct (Ascii.eqb opt "n") eqn:En.
    { apply Ascii.eqb_eq in En. subst opt. cbn. exact (IH _ _ _ _ Hloop). }
    destruct (Ascii.eqb opt "s") eqn:Es.
    { apply Ascii.eqb_eq in Es. subst opt. cbn. exact (IH _ _ _ _ Hloop). }
    destruct (Ascii.eqb opt "S") eqn:ES.
    { apply Ascii.eqb_eq in ES. subst opt. cbn. exact (IH _ _ _ _ Hloop). }
    destruct (Ascii.eqb opt "v") eqn:Ev.
    { apply Ascii.eqb_eq in Ev. subst opt. cbn. exact (IH _ _ _ _ Hloop). }
    destruct (Ascii.eqb opt "L") eqn:EL.
    { exact (IH _ _ _ _ Hloop). }
    destruct (Ascii.eqb opt "k") eqn:Ek.
    { exact (IH _ _ _ _ Hloop). }
    destruct (Ascii.eqb opt "p") eqn:Ep; [|discriminate].
    destruct (in_grammar optarg); cbn [Z.eqb Pos.eqb] in Hloop;
      [|discriminate].
    exact (IH _ _ _ _ Hloop).
Qed.

Lemma getopt_loop_perm_invariant (opts : list (ascii * string)) :
  forall (l l' : V02.locals) st st',
    perm_invariant l st ->
    V02.getopt_loop opts l st = inr (l', st') ->
    perm_invariant l' st'.
Proof.
  induction opts as [|[opt optarg] rest IH]; intros l l' st st' Hinv Hloop;
    cbn [V02.getopt_loop] in Hloop.
  - now injection Hloop as <- <-.
  - repeat match type of Hloop with
           | context [if Ascii.eqb ?c ?d then _ else _] =>
               destruct (Ascii.eqb c d)
           | context [if ?a || ?b then _ else _] => destruct (a || b)
           end;
      try discriminate;
      try (eapply IH; [|exact Hloop]; exact Hinv).
    pose proof (validated_wildcard_accepted optarg st) as Hacc.
    rewrite validate_cases in Hloop, Hacc.
    destruct (in_grammar optarg); cbn [Z.eqb Pos.eqb fst snd] in Hloop, Hacc;
      [|discriminate].
    eapply IH; [|exact Hloop].
    intros _. now apply Hacc.
Qed.

End Options.

(** ** Nine-bit modes *)

Lemma accepted_char_slot (c : ascii) :
  accepted_char c = true -> exists s, slot_of_char c = Some s.
Proof.
  intros H. apply accepted_char_inv in H. simpl in H.
  destruct H as [<-|[<-|[<-|[<-|[<-|[]]]]]]; eexists; reflexivity.
Qed.

(** With three accepted characters in [wildcard_mode] the result of
    [apply_wildcard_mode] is a nine-bit value. *)
Lemma v02_apply_nine_bit (w : list ascii) (m : Z) :
  accepted_wildcard w = true -> 0 <= V02.apply_wildcard_mode w m < 512.
Proof.
  unfold accepted_wildcard. intros H.
  apply andb_prop in H as [H H2]. apply andb_prop in H as [H0 H1].
  destruct (accepted_char_slot _ H0) as (s0 & E0).
  destruct (accepted_char_slot _ H1) as (s1 & E1).
  destruct (accepted_char_slot _ H2) as (s2 & E2).
  unfold V02.apply_wildcard_mode. simpl fold_left.
  pose proof (land_511_range m) as Hx. set (x := Z.land m 511) in *.
  pose proof (step_contract_range _ _ 0 x E0 Hx) as Hx0.
  rewrite (v02_step_contract _ s0 0 x) by (lia || assumption).
  set (x0 := step_contract s0 0 x) in *.
  pose proof (step_contract_range _ _ 1 x0 E1 Hx0) as Hx1.
  rewrite (v02_step_contract _ s1 1 x0) by (lia || assumption).
  set (x1 := step_contract s1 1 x0) in *.
  pose proof (step_contract_range _ _ 2 x1 E2 Hx1) as Hx2.
  rewrite (v02_step_contract _ s2 2 x1) by (lia || assumption).
  exact Hx2.
Qed.

Lemma nine_bit_chmods (t : list event) :
  chmod_modes_nine_bit t <-> chmod_modes_nine_bit (chmods t).
Proof.
  unfold chmod_modes_nine_bit, chmods.
  induction t as [|e t IH]; cbn [filter]; [tauto|].
  destruct e as [text|text|path mode ok]; cbn [is_chmod].
  - split; intros H; [inversion H; tauto | constructor; tauto].
  - split; intros H; [inversion H; tauto | constructor; tauto].
  - split; intros H; inversion H; subst; constructor; tauto.
Qed.

Lemma nine_bit_app (t u : list event) :
  chmod_modes_nine_bit (t ++ u)
  <-> chmod_modes_nine_bit t /\ chmod_modes_nine_bit u.
Proof. apply Forall_app. Qed.

Section NineBit.

Context {world : Type} (OS : posix world).

Implicit Types st : V02.state world.

Lemma change_permissions_nine_bit (path : string) (cf cd : bool)
    (policy : V02.symlink_mode_t) st :
  accepted_wildcard (V02.wildcard_mode st) = true ->
  chmod_modes_nine_bit (V02.trace st) ->
  chmod_modes_nine_bit
    (V02.trace (V02.change_permissions OS path cf cd policy st)).
Proof.
  intros Hacc Hold.
  rewrite nine_bit_chmods in *.
  destruct (change_permissions_accounting OS path cf cd policy st)
    as [(Hc & _)|(m & new_mode & _ & Hnew & _ & _ & [H|H])].
  - now rewrite Hc.
  - destruct H as (e & _ & Hc & _). rewrite Hc.
    apply nine_bit_app. split; [exact Hold|].
    constructor; [|constructor]. subst new_mode.
    now apply v02_apply_nine_bit.
  - destruct H as (w' & _ & Hc & _). rewrite Hc.
    apply nine_bit_app. split; [exact Hold|].
    constructor; [|constructor]. subst new_mode.
    now apply v02_apply_nine_bit.
Qed.

Lemma walk_nine_bit (fuel : nat) (dir_path : string)
    (recursive cf cd include_dir : bool) (policy : V02.symlink_mode_t)
    st st' :
  V02.process_directory OS fuel dir_path recursive cf cd include_dir
    policy st = Some st' ->
  accepted_wildcard (V02.wildcard_mode st) = true ->
  chmod_modes_nine_bit (V02.trace st) ->
  chmod_modes_nine_bit (V02.trace st').
Proof.
  intros Hwalk Hacc Hold.
  assert (H : accepted_wildcard (V02.wildcard_mode st) = true ->
              chmod_modes_nine_bit (V02.trace st) ->
              accepted_wildcard (V02.wildcard_mode st') = true
              /\ chmod_modes_nine_bit (V02.trace st')).
  { apply (process_directory_invariant OS
             (fun a b =>
                accepted_wildcard (V02.wildcard_mode a) = true ->
                chmod_modes_nine_bit (V02.trace a) ->
                accepted_wildcard (V02.wildcard_mode b) = true
                /\ chmod_modes_nine_bit (V02.trace b))
             cf cd policy)
      with (fuel := fuel) (dir_path := dir_path) (recursive := recursive)
           (include_dir := include_dir); try exact Hwalk.
    - auto.
    - intros a b c Hab Hbc Ha Ta. destruct (Hab Ha Ta) as (Hb & Tb).
      exact (Hbc Hb Tb).
    - intros p s Hs Ts. split.
      + pose proof (change_permissions_config OS p cf cd policy s) as Hc.
        unfold config in Hc. injection Hc as -> _ _. exact Hs.
      + now apply change_permissions_nine_bit.
    - intros _ p s Hs Ts. split.
      + pose proof (change_permissions_config OS p false true policy s)
          as Hc.
        unfold config in Hc. injection Hc as -> _ _. exact Hs.
      + now apply change_permissions_nine_bit.
    - intros text s Hs Ts. destruct (negb _); cbn [V02.when]; [|auto].
      split; [exact Hs|]. cbn. apply nine_bit_app. split; [exact Ts|].
      constructor; [exact I | constructor]. }
  exact (proj2 (H Hacc Hold)).
Qed.

Lemma nine_bit_of_chmods_eq (t u : list event) :
  chmods u = chmods t -> chmod_modes_nine_bit t -> chmod_modes_nine_bit u.
Proof.
  intros E H. apply (proj2 (nine_bit_chmods u)). rewrite E.
  exact (proj1 (nine_bit_chmods t) H).
Qed.

(** X7. Every [chmod] call of a run passes a nine-bit mode. *)
Theorem run_chmods_nine_bit (fuel : nat) (opts : list (ascii * string))
    (operands : list string) (w : world) (rc : Z) st'
    (Hrun : V02.main OS fuel opts operands (V02.initial_state w)
            = Some (rc, st')) :
  chmod_modes_nine_bit (V02.trace st').
Proof.
  unfold V02.main in Hrun.
  pose proof (getopt_loop_frame opts V02.initial_locals
                (V02.initial_state w)) as Hframe.
  pose proof (@getopt_loop_perm_invariant world opts V02.initial_locals)
    as Hperm.
  assert (Hnil : chmod_modes_nine_bit (V02.trace (V02.initial_state w)))
    by constructor.
  assert (Hinit : perm_invariant V02.initial_locals (V02.initial_state w))
    by (intros H; discriminate H).
  destruct (V02.getopt_loop opts V02.initial_locals (V02.initial_state w))
    as [[rc0 s0]|[l s1]] eqn:Hloop.
  - injection Hrun as _ <-. destruct Hframe as (_ & _ & Hc).
    exact (nine_bit_of_chmods_eq _ _ Hc Hnil).
  - destruct Hframe as (_ & _ & Hc).
    pose proof (nine_bit_of_chmods_eq _ _ Hc Hnil) as H1.
    specialize (Hperm l _ s1 Hinit Hloop).
    destruct operands as [|directory rest].
    + injection Hrun as _ <-. cbn. rewrite <- app_assoc.
      apply nine_bit_app. split; [exact H1|].
      repeat constructor.
    + destruct (V02.perm_flag l) eqn:Hp; cbn [negb] in Hrun.
      * destruct (V02.process_directory _ _ _ _ _ _ _ _ _) as [s2|] eqn:Hw;
          [|discriminate].
        injection Hrun as _ <-.
        pose proof (walk_nine_bit _ _ _ _ _ _ _ _ _ Hw (Hperm Hp) H1)
          as H2.
        unfold V02.print_summary. rewrite print_lines_emit_all.
        rewrite trace_emit_all. apply nine_bit_app. split; [exact H2|].
        apply nine_bit_chmods. rewrite chmods_map_stdout. constructor.
      * injection Hrun as _ <-. cbn. rewrite <- app_assoc.
        apply nine_bit_app. split; [exact H1|].
        repeat constructor.
Qed.

(** X8. A run that exits with failure has not touched the file system, the
    counters, nor called [chmod]. *)
Theorem failed_run_touches_nothing (fuel : nat)
    (opts : list (ascii * string)) (operands : list string) st st'
    (Hrun : V02.main OS fuel opts operands st = Some (EXIT_FAILURE, st')) :
  V02.fs st' = V02.fs st
  /\ counters st' = counters st
  /\ chmods (V02.trace st') = chmods (V02.trace st).
Proof.
  unfold V02.main in Hrun.
  pose proof (getopt_loop_frame opts V02.initial_locals st) as Hframe.
  destruct (V02.getopt_loop opts V02.initial_locals st)
    as [[rc0 s0]|[l s1]].
  - injection Hrun as _ <-. exact Hframe.
  - destruct Hframe as (Hf & Hn & Hc).
    destruct operands as [|directory rest].
    + injection Hrun as <-. cbn. rewrite <- app_assoc, chmods_app.
      cbn. rewrite app_nil_r. auto.
    + destruct (V02.perm_flag l); cbn [negb] in Hrun.
      * destruct (V02.process_directory _ _ _ _ _ _ _ _ _); discriminate.
      * injection Hrun as <-. cbn. rewrite <- app_assoc, chmods_app.
        cbn. rewrite app_nil_r. auto.
Qed.

End NineBit.

(** ** The change counters and the successful [chmod] calls *)

Lemma s32_in_int (x : Z) : in_int (s32 x).
Proof.
  unfold in_int, s32.
  pose proof (Z.mod_pos_bound (x + 2 ^ 31) (2 ^ 32) eq_refl). lia.
Qed.

Lemma u32_s32 (x : Z) : u32 (s32 x) = u32 x.
Proof.
  unfold u32, s32. rewrite Zminus_mod_idemp_l. f_equal. lia.
Qed.

Lemma u32_int_incr (x : Z) : u32 (int_incr x) = u32 (x + 1).
Proof. unfold int_incr. apply u32_s32. Qed.

Lemma u32_add_l (x y z : Z) : u32 x = u32 y -> u32 (x + z) = u32 (y + z).
Proof.
  unfold u32. intros H.
  rewrite <- (Zplus_mod_idemp_l x), <- (Zplus_mod_idemp_l y). now rewrite H.
Qed.

Lemma in_int_u32_eq (x n : Z) :
  in_int x -> 0 <= n < 2 ^ 31 -> u32 x = u32 n -> x = n.
Proof.
  unfold in_int, u32. intros Hx Hn H.
  rewrite (Z.mod_small n) in H by lia.
  destruct (Z_lt_le_dec x 0) as [Hneg|Hpos].
  - assert (E : x mod 2 ^ 32 = x + 2 ^ 32).
    { symmetry. apply Z.mod_unique with (q := -1); lia. }
    lia.
  - rewrite Z.mod_small in H by lia. exact H.
Qed.

Lemma successful_chmods_app (t u : list event) :
  successful_chmods (t ++ u) = successful_chmods t + successful_chmods u.
Proof.
  unfold successful_chmods. rewrite filter_app, length_app. lia.
Qed.

Lemma successful_chmods_chmods (t : list event) :
  successful_chmods (chmods t) = successful_chmods t.
Proof.
  unfold successful_chmods, chmods. f_equal. f_equal.
  induction t as [|e t IH]; [reflexivity|].
  destruct e as [text|text|path mode [|]]; cbn; now rewrite ?IH.
Qed.

Lemma successful_chmods_nonneg (t : list event) : 0 <= successful_chmods t.
Proof. unfold successful_chmods. lia. Qed.

Section Accounting.

Context {world : Type} (OS : posix world).

Implicit Types st : V02.state world.

Lemma accounted_same (a b : V02.state world) :
  V02.files_changed b = V02.files_changed a ->
  V02.dirs_changed b = V02.dirs_changed a ->
  successful_chmods (chmods (V02.trace b))
  = successful_chmods (chmods (V02.trace a)) ->
  accounted a b.
Proof.
  intros Hf Hd Hc If Id. rewrite Hf, Hd.
  split; [exact If|]. split; [exact Id|].
  exists 0, 0. rewrite Hc, !Z.add_0_r. repeat split; lia.
Qed.

Lemma accounted_trans (a b c : V02.state world) :
  accounted a b -> accounted b c -> accounted a c.
Proof.
  intros Hab Hbc If Id.
  destruct (Hab If Id) as (If' & Id' & nf1 & nd1 & P1 & Q1 & C1 & F1 & D1).
  destruct (Hbc If' Id') as (If'' & Id'' & nf2 & nd2 & P2 & Q2 & C2 & F2 & D2).
  split; [exact If''|]. split; [exact Id''|].
  exists (nf1 + nf2), (nd1 + nd2).
  split; [lia|]. split; [lia|]. split; [lia|].
  split.
  - rewrite F2, (u32_add_l _ _ nf2 F1). f_equal. lia.
  - rewrite D2, (u32_add_l _ _ nd2 D1). f_equal. lia.
Qed.

Lemma change_permissions_accounted (path : string) (cf cd : bool)
    (policy : V02.symlink_mode_t) st :
  accounted st (V02.change_permissions OS path cf cd policy st).
Proof.
  destruct (change_permissions_accounting OS path cf cd policy st)
    as [(Hc & _ & Hf & Hd)|(m & new_mode & _ & _ & _ & _ & [H|H])].
  - apply accounted_same; [exact Hf | exact Hd | now rewrite Hc].
  - destruct H as (e & _ & Hc & _ & Hf & Hd).
    apply accounted_same; [exact Hf | exact Hd |].
    rewrite Hc, successful_chmods_app. cbn. lia.
  - destruct H as (w' & _ & Hc & _ & Hk).
    intros If Id. rewrite Hc, successful_chmods_app.
    change (successful_chmods [Chmod path new_mode true]) with 1.
    destruct (S_ISDIR m && cd); destruct Hk as (E1 & E2); rewrite E1, E2.
    + split; [exact If|]. split; [apply s32_in_int|].
      exists 0, 1.
      split; [lia|]. split; [lia|]. split; [lia|].
      split; [now rewrite Z.add_0_r | apply u32_int_incr].
    + split; [apply s32_in_int|]. split; [exact Id|].
      exists 1, 0.
      split; [lia|]. split; [lia|]. split; [lia|].
      split; [apply u32_int_incr | now rewrite Z.add_0_r].
Qed.

Lemma walk_accounted (fuel : nat) (dir_path : string)
    (recursive cf cd include_dir : bool) (policy : V02.symlink_mode_t)
    st st' :
  V02.process_directory OS fuel dir_path recursive cf cd include_dir
    policy st = Some st' ->
  accounted st st'.
Proof.
  intros Hwalk.
  apply (process_directory_invariant OS accounted cf cd policy)
    with (fuel := fuel) (dir_path := dir_path) (recursive := recursive)
         (include_dir := include_dir); try exact Hwalk.
  - intros a. now apply accounted_same.
  - apply accounted_trans.
  - intros. apply change_permissions_accounted.
  - intros. apply change_permissions_accounted.
  - intros text s. destruct (negb _); cbn [V02.when];
      apply accounted_same; try reflexivity.
    cbn. now rewrite chmods_app, app_nil_r.
Qed.

(** X9. At the end of a run started on the initial globals, the two change
    counters add up to the number of [chmod] calls that succeeded, as long
    as that number fits an [int]. *)
Theorem run_counts_successful_chmods (fuel : nat)
    (opts : list (ascii * string)) (operands : list string) (w : world)
    (rc : Z) st'
    (Hrun : V02.main OS fuel opts operands (V02.initial_state w)
            = Some (rc, st'))
    (Hfits : successful_chmods (V02.trace st') < 2 ^ 31) :
  V02.files_changed st' + V02.dirs_changed st'
  = successful_chmods (V02.trace st').
Proof.
  assert (Hstill : forall s : V02.state world,
            counters s = counters (V02.initial_state w) ->
            chmods (V02.trace s) = [] ->
            V02.files_changed s + V02.dirs_changed s
            = successful_chmods (V02.trace s)).
  { intros s Hn Hc. unfold counters in Hn. injection Hn as -> -> _ _ _.
    rewrite <- successful_chmods_chmods, Hc. reflexivity. }
  unfold V02.main in Hrun.
  pose proof (getopt_loop_frame opts V02.initial_locals
                (V02.initial_state w)) as Hframe.
  destruct (V02.getopt_loop opts V02.initial_locals (V02.initial_state w))
    as [[rc0 s0]|[l s1]].
  - injection Hrun as _ <-. destruct Hframe as (_ & Hn & Hc).
    now apply Hstill.
  - destruct Hframe as (_ & Hn & Hc).
    destruct operands as [|directory rest].
    + injection Hrun as _ <-. apply Hstill; [exact Hn|].
      cbn. rewrite <- app_assoc, chmods_app, Hc. reflexivity.
    + destruct (V02.perm_flag l); cbn [negb] in Hrun.
      * destruct (V02.process_directory _ _ _ _ _ _ _ _ _) as [s2|] eqn:Hw;
          [|discriminate].
        injection Hrun as _ <-.
        unfold V02.print_summary in *. rewrite print_lines_emit_all in *.
        rewrite files_changed_emit_all, dirs_changed_emit_all.
        rewrite trace_emit_all in *.
        rewrite <- successful_chmods_chmods in *.
        rewrite chmods_app, chmods_map_stdout, app_nil_r in *.
        unfold counters in Hn. injection Hn as Hf Hd _ _ _.
        destruct (walk_accounted _ _ _ _ _ _ _ _ _ Hw)
          as (If & Id & nf & nd & Pf & Pd & Hsum & Ef & Ed).
        { rewrite Hf. cbn. unfold in_int. lia. }
        { rewrite Hd. cbn. unfold in_int. lia. }
        rewrite Hc in Hsum.
        change (successful_chmods (chmods (V02.trace (V02.initial_state w))))
          with 0 in Hsum.
        rewrite Hf in Ef. rewrite Hd in Ed. cbn in Ef, Ed.
        assert (Hnf : 0 <= nf < 2 ^ 31) by lia.
        assert (Hnd : 0 <= nd < 2 ^ 31) by lia.
        rewrite (in_int_u32_eq _ nf If Hnf Ef).
        rewrite (in_int_u32_eq _ nd Id Hnd Ed).
        lia.
      * injection Hrun as _ <-. apply Hstill; [exact Hn|].
        cbn. rewrite <- app_assoc, chmods_app, Hc. reflexivity.
Qed.

End Accounting.

(** ** Entries that cannot be examined or were not requested *)

Section EntryEdges.

Context {world : Type} (OS : posix world).

Implicit Types st : V02.state world.

(** X10. An entry that cannot be examined is reported and nothing else. *)
Theorem inaccessible_entry_is_only_reported (path : string) (cf cd : bool)
    (policy : V02.symlink_mode_t) st
    (Hbad : inaccessible OS path policy st = true) :
  let st' := V02.change_permissions OS path cf cd policy st in
  counters st' = counters st
  /\ V02.fs st' = V02.fs st
  /\ exists text,
       V02.trace st'
       = V02.trace st
         ++ (if V02.is_silent (V02.output_mode st) then []
             else [Stderr text]).
Proof.
  unfold inaccessible in Hbad. unfold V02.change_permissions. cbv zeta.
  destruct (lstat OS (V02.fs st) path) as [m|e].
  - destruct (S_ISLNK m); [|discriminate].
    destruct policy; try discriminate.
    destruct (stat OS (V02.fs st) path) as [tm|e]; [discriminate|].
    rewrite when_eprintf_emit_all, counters_emit_all, fs_emit_all,
      trace_emit_all.
    repeat split. eexists. now destruct (V02.is_silent _).
  - rewrite when_eprintf_emit_all, counters_emit_all, fs_emit_all,
      trace_emit_all.
    repeat split. eexists. now destruct (V02.is_silent _).
Qed.

(** X11. Outside the verbose output mode, an entry of a kind that was not
    requested leaves the whole state as it was. *)
Theorem unrequested_entry_is_invisible (path : string) (cf cd : bool)
    (policy : V02.symlink_mode_t) st (m : Z)
    (Hlstat : lstat OS (V02.fs st) path = Ok m)
    (Hplain : S_ISLNK m = false)
    (Hkind : requested m cf cd = false)
    (Hmode : V02.output_mode st <> V02.OUTPUT_VERBOSE) :
  V02.change_permissions OS path cf cd policy st = st.
Proof.
  unfold requested in Hkind. apply orb_false_elim in Hkind as [Hd Hf].
  assert (Hv : V02.is_verbose (V02.output_mode st) = false)
    by (destruct (V02.output_mode st); try reflexivity; congruence).
  unfold V02.change_permissions. rewrite Hlstat, Hplain.
  unfold V02.change_mode. cbv zeta. rewrite Hv, !orb_false_r.
  destruct (Z.land m 511 =? V02.apply_wildcard_mode _ _).
  - destruct (negb (V02.is_quiet _) && negb (V02.is_silent _));
      [|reflexivity].
    destruct (S_ISDIR m).
    + cbn [andb] in Hd. now rewrite Hd.
    + destruct (S_ISREG m); [|reflexivity].
      cbn [andb] in Hf. now rewrite Hf.
  - now rewrite Hd, Hf.
Qed.

(** X12. One entry, one [chmod] at most, counted exactly when it
    succeeds. *)
Theorem one_chmod_per_entry (path : string) (cf cd : bool)
    (policy : V02.symlink_mode_t) st :
  let st' := V02.change_permissions OS path cf cd policy st in
  (chmods (V02.trace st') = chmods (V02.trace st)
   /\ V02.fs st' = V02.fs st
   /\ V02.files_changed st' = V02.files_changed st
   /\ V02.dirs_changed st' = V02.dirs_changed st)
  \/ exists m new_mode,
       entry_mode OS path policy st = Some m
       /\ new_mode
          = V02.apply_wildcard_mode (V02.wildcard_mode st) (Z.land m 511)
       /\ new_mode <> Z.land m 511
       /\ requested m cf cd = true
       /\ ((exists e,
              chmod OS (V02.fs st) path new_mode = Fail e
              /\ chmods (V02.trace st')
                 = chmods (V02.trace st) ++ [Chmod path new_mode false]
              /\ V02.fs st' = V02.fs st
              /\ V02.files_changed st' = V02.files_changed st
              /\ V02.dirs_changed st' = V02.dirs_changed st)
           \/ (exists w',
                 chmod OS (V02.fs st) path new_mode = Ok w'
                 /\ chmods (V02.trace st')
                    = chmods (V02.trace st) ++ [Chmod path new_mode true]
                 /\ V02.fs st' = w'
                 /\ if S_ISDIR m && cd
                    then V02.dirs_changed st' = int_incr (V02.dirs_changed st)
                         /\ V02.files_changed st' = V02.files_changed st
                    else V02.files_changed st'
                         = int_incr (V02.files_changed st)
                         /\ V02.dirs_changed st' = V02.dirs_changed st)).
Proof. exact (change_permissions_accounting OS path cf cd policy st). Qed.

End EntryEdges.

(** ** The shape of the walk *)

Section WalkShape.

Context {world : Type} (OS : posix world).

Implicit Types st : V02.state world.

(** X13. The entries [.] and [..] play no part in the walk. *)
Theorem readdir_loop_ignores_dot_entries
    (descend : string -> V02.state world -> option (V02.state world))
    (dir_path : string) (recursive cf cd : bool)
    (policy : V02.symlink_mode_t) (entries : list dirent) st :
  V02.readdir_loop OS descend dir_path recursive cf cd policy entries st
  = V02.readdir_loop OS descend dir_path recursive cf cd policy
      (filter not_dot entries) st.
Proof.
  revert st. induction entries as [|entry rest IH]; intros st.
  - reflexivity.
  - cbn [filter]. unfold not_dot at 1.
    destruct (String.eqb (d_name entry) "." || String.eqb (d_name entry) "..")
      eqn:Edot; cbn [negb].
    + cbn [V02.readdir_loop]. rewrite Edot. apply IH.
    + cbn [V02.readdir_loop]. rewrite Edot.
      destruct (recursive && is_DT_DIR (d_type entry)).
      * destruct (descend _ _); [apply IH | reflexivity].
      * apply IH.
Qed.

Lemma readdir_loop_flat
    (descend : string -> V02.state world -> option (V02.state world))
    (dir_path : string) (recursive cf cd : bool)
    (policy : V02.symlink_mode_t) (entries : list dirent) :
  forallb (stays_out recursive) (filter not_dot entries) = true ->
  forall st,
    V02.readdir_loop OS descend dir_path recursive cf cd policy entries st
    = Some (fold_left
              (fun s entry =>
                 V02.change_permissions OS (entry_path dir_path entry) cf cd
                   policy s)
              (filter not_dot entries) st).
Proof.
  induction entries as [|entry rest IH]; intros Hout st.
  - reflexivity.
  - cbn [filter] in *. unfold not_dot at 1 in Hout. unfold not_dot at 1.
    cbn [V02.readdir_loop].
    destruct (String.eqb (d_name entry) "." || String.eqb (d_name entry) "..");
      cbn [negb] in *.
    + now apply IH.
    + cbn [forallb] in Hout. apply andb_prop in Hout as [Hent Hrest].
      unfold stays_out in Hent. apply negb_true_iff in Hent. rewrite Hent.
      cbn [fold_left]. now apply IH.
Qed.

(** X14. When recursion is off, or no entry is reported as a directory, the
    walk of a directory that opens is the per-entry operation folded over
    its entries, in their order, and it returns whatever the depth
    bound. *)
Theorem flat_walk_is_a_fold (fuel : nat) (dir_path : string)
    (recursive cf cd include_dir : bool) (policy : V02.symlink_mode_t)
    (entries : list dirent) st
    (Hopen : opendir OS
               (V02.fs (after_root OS dir_path cd include_dir policy st))
               dir_path = Ok entries)
    (Hflat : forallb (stays_out recursive) (filter not_dot entries) = true) :
  V02.process_directory OS (S fuel) dir_path recursive cf cd include_dir
    policy st
  = Some (fold_left
            (fun s entry =>
               V02.change_permissions OS (entry_path dir_path entry) cf cd
                 policy s)
            (filter not_dot entries)
            (after_root OS dir_path cd include_dir policy st)).
Proof.
  cbn [V02.process_directory]. unfold after_root in *.
  rewrite Hopen. now apply readdir_loop_flat.
Qed.

(** X15. A directory argument that cannot be opened is reported, nothing is
    changed, and the run still exits with success. *)
Theorem unreadable_directory_exits_with_success (fuel : nat)
    (opts : list (ascii * string)) (directory : string)
    (rest : list string) (st st1 : V02.state world) (l : V02.locals) (e : Z)
    (Hopts : V02.getopt_loop opts V02.initial_locals st = inr (l, st1))
    (Hperm : V02.perm_flag l = true)
    (Hroot : V02.change_dirs l && V02.include_dir l = false)
    (Hopen : opendir OS (V02.fs st1) directory = Fail e) :
  exists st',
    V02.main OS (S fuel) opts (directory :: rest) st
    = Some (EXIT_SUCCESS, st')
    /\ V02.fs st' = V02.fs st
    /\ counters st' = counters st
    /\ chmods (V02.trace st') = chmods (V02.trace st)
    /\ diagnostics (V02.trace st')
       = diagnostics (V02.trace st1)
         ++ (if V02.is_silent (V02.output_mode st1) then []
             else [Stderr ("Error: Cannot open directory " ++ directory
                           ++ ": " ++ strerror OS e ++ nl)%string]).
Proof.
  pose proof (getopt_loop_frame opts V02.initial_locals st) as Hframe.
  rewrite Hopts in Hframe. destruct Hframe as (Hf & Hn & Hc).
  unfold V02.main. rewrite Hopts, Hperm. cbn [negb V02.process_directory].
  rewrite Hroot. cbn [V02.when]. rewrite Hopen.
  eexists. split; [reflexivity|].
  unfold V02.print_summary.
  rewrite print_lines_emit_all, when_eprintf_emit_all.
  rewrite fs_emit_all, counters_emit_all, !trace_emit_all.
  rewrite fs_emit_all, counters_emit_all.
  rewrite !chmods_app, !diagnostics_app, chmods_map_stdout.
  split; [exact Hf|]. split; [exact Hn|].
  assert (Hd : forall lines, diagnostics (map Stdout lines) = [])
    by (induction lines as [|x lines IH]; [reflexivity | exact IH]).
  rewrite Hd, !app_nil_r.
  destruct (V02.is_silent (V02.output_mode st1)); cbn;
    rewrite ?app_nil_r; auto.
Qed.

End WalkShape.

(** ** The validator and the rendering of the specification *)

Section Validator.

Context {world : Type}.

Implicit Types st : V02.state world.

(** X16. A rejected option argument changes nothing but the trace. *)
Theorem rejected_argument_changes_nothing (optarg : string) st
    (Hbad : in_grammar optarg = false) :
  let st' := snd (V02.validate_and_process_octal optarg st) in
  config st' = config st
  /\ counters st' = counters st
  /\ V02.fs st' = V02.fs st
  /\ V02.trace st'
     = V02.trace st
       ++ [Stderr ("Error: Invalid octal value: " ++ normalized optarg
                   ++ " (web search: unix octal permissions)" ++ nl ++ nl)%string;
           Stdout ("type `rper -h` for help" ++ nl ++ nl)%string].
Proof.
  cbv zeta. rewrite validate_cases, Hbad. cbn [snd].
  repeat split. cbn. now rewrite <- app_assoc.
Qed.

(** X17. An accepted option argument is stored without a word on either
    stream, and [print_wildcard_mode] then writes it back, less the
    leading 0 of a four-character argument. *)
Theorem accepted_argument_round_trip (optarg : string) st
    (Hgood : in_grammar optarg = true) :
  let st' := snd (V02.validate_and_process_octal optarg st) in
  V02.trace st' = V02.trace st
  /\ exists evs,
       V02.trace (V02.print_wildcard_mode st') = V02.trace st ++ evs
       /\ stdout_text evs = normalized optarg.
Proof.
  cbv zeta. rewrite validate_cases, Hgood. cbn [snd].
  split; [reflexivity|].
  rewrite print_wildcard_mode_emit_all, trace_emit_all.
  eexists. split; [reflexivity|].
  unfold in_grammar in Hgood. unfold normalized.
  destruct optarg as [|c0 [|c1 [|c2 [|c3 [|c4 rest]]]]]; try discriminate.
  - reflexivity.
  - cbn [list_ascii_of_string] in Hgood.
    cbn [String.length Nat.eqb andb String.get].
    destruct (Ascii.eqb c0 "0"); [|discriminate]. reflexivity.
Qed.

End Validator.

(** ** The permissions option is required *)

Section Required.

Context {world : Type} (OS : posix world).

Implicit Types st : V02.state world.

Lemma getopt_loop_without_p (opts : list (ascii * string)) :
  lacks "p" opts && lacks "a" opts && lacks "h" opts && lacks "H" opts
  = true ->
  forall (l : V02.locals) st,
    (exists st', V02.getopt_loop opts l st = inl (EXIT_FAILURE, st'))
    \/ (exists l' st',
          V02.getopt_loop opts l st = inr (l', st')
          /\ V02.perm_flag l' = V02.perm_flag l).
Proof.
  induction opts as [|[opt optarg] rest IH]; intros Hno l st.
  - right. exists l, st. auto.
  - unfold lacks in Hno. cbn [forallb fst] in Hno.
    repeat match type of Hno with
           | _ && _ = true => apply andb_prop in Hno as [Hno ?]
           end.
    repeat match goal with
           | H : _ && _ = true |- _ => apply andb_prop in H as [? ?]
           | H : negb _ = true |- _ => apply negb_true_iff in H
           end.
    assert (Hrest : lacks "p" rest && lacks "a" rest && lacks "h" rest
                    && lacks "H" rest = true).
    { unfold lacks. repeat (apply andb_true_intro; split); assumption. }
    cbn [V02.getopt_loop].
    repeat match goal with
           | H : Ascii.eqb opt _ = false |- _ => rewrite H; clear H
           end.
    cbn [orb].
    repeat match goal with
           | |- context [if Ascii.eqb ?c ?d then _ else _] =>
               destruct (Ascii.eqb c d)
           end;
      first
        [ left; eexists; reflexivity
        | match goal with
          | |- context [V02.getopt_loop rest ?l' ?s'] =>
              destruct (IH Hrest l' s') as [(s & E)|(l2 & s & E & P)];
              [ left; exists s; exact E
              | right; exists l2, s; split; [exact E | exact P] ]
          end ].
Qed.

(** X18. Without [-p] (and without [-a], [-h], [-H]) the run exits with
    failure, whatever its other options and operands. *)
Theorem permissions_option_is_required (fuel : nat)
    (opts : list (ascii * string)) (operands : list string) st
    (Hno : lacks "p" opts && lacks "a" opts && lacks "h" opts
           && lacks "H" opts = true) :
  exists st', V02.main OS fuel opts operands st = Some (EXIT_FAILURE, st').
Proof.
  unfold V02.main.
  destruct (getopt_loop_without_p opts Hno V02.initial_locals st)
    as [(s & E)|(l & s & E & P)]; rewrite E.
  - eexists; reflexivity.
  - destruct operands; [eexists; reflexivity|].
    rewrite P. cbn. eexists; reflexivity.
Qed.

End Required.

(** ** Two specifications in a row *)

Lemma v02_apply_join (w : list ascii) (s0 s1 s2 : slot) (m : Z) :
  slot_of_char (char_at w 0) = Some s0 ->
  slot_of_char (char_at w 1) = Some s1 ->
  slot_of_char (char_at w 2) = Some s2 ->
  V02.apply_wildcard_mode w m
  = join (pick s0 (Z.land m 511 / 64))
         (pick s1 ((Z.land m 511 / 8) mod 8))
         (pick s2 (Z.land m 511 mod 8))
  /\ 0 <= pick s0 (Z.land m 511 / 64) < 8
  /\ 0 <= pick s1 ((Z.land m 511 / 8) mod 8) < 8
  /\ 0 <= pick s2 (Z.land m 511 mod 8) < 8.
Proof.
  intros E0 E1 E2.
  unfold V02.apply_wildcard_mode. simpl fold_left.
  pose proof (land_511_range m) as Hx. set (x := Z.land m 511) in *.
  pose proof (step_contract_range _ _ 0 x E0 Hx) as Hx0.
  rewrite (v02_step_contract _ s0 0 x) by (lia || assumption).
  set (x0 := step_contract s0 0 x) in *.
  pose proof (step_contract_range _ _ 1 x0 E1 Hx0) as Hx1.
  rewrite (v02_step_contract _ s1 1 x0) by (lia || assumption).
  set (x1 := step_contract s1 1 x0) in *.
  assert (H0 := slot_of_char_range _ s0 (x / 64) E0).
  assert (H1 := slot_of_char_range _ s1 ((x / 8) mod 8) E1).
  assert (H2 := slot_of_char_range _ s2 (x mod 8) E2).
  assert (Hu0 : 0 <= x / 64 < 8) by (Z.div_mod_to_equations; lia).
  assert (Hg : 0 <= (x / 8) mod 8 < 8) by (Z.div_mod_to_equations; lia).
  assert (Ho : 0 <= x mod 8 < 8) by (Z.div_mod_to_equations; lia).
  specialize (H0 Hu0). specialize (H1 Hg). specialize (H2 Ho).
  rewrite (v02_step_contract _ s2 2 x1) by (lia || assumption).
  subst x1 x0. cbn [step_contract].
  destruct (join_groups _ _ _ H0 Hg Ho) as (-> & -> & ->).
  destruct (join_groups _ _ _ H0 H1 Ho) as (-> & -> & ->).
  auto.
Qed.

Lemma slot_of_merge_char (a b : ascii) (sa sb : slot) :
  slot_of_char a = Some sa -> slot_of_char b = Some sb ->
  exists s,
    slot_of_char (merge_char a b) = Some s
    /\ forall x, pick s x = pick sb (pick sa x).
Proof.
  intros Ha Hb. unfold merge_char.
  destruct (Ascii.eqb b star) eqn:E.
  - exists sa. split; [exact Ha|].
    unfold slot_of_char in Hb. rewrite E in Hb. now injection Hb as <-.
  - exists sb. split; [exact Hb|].
    unfold slot_of_char in Hb. rewrite E in Hb.
    destruct (is_octal_digit b); [|discriminate]. now injection Hb as <-.
Qed.

(** X19. Applying one specification and then another is applying their
    merge, in which each slot is the second's unless it is the
    wildcard. *)
Theorem apply_wildcard_mode_twice_is_merge (first second : list ascii)
    (s t : ModeSpec) (m : Z)
    (Hfirst : modespec_of first = Some s)
    (Hsecond : modespec_of second = Some t) :
  V02.apply_wildcard_mode second (V02.apply_wildcard_mode first m)
  = V02.apply_wildcard_mode (merge_wildcard first second) m.
Proof.
  unfold modespec_of in *.
  destruct (slot_of_char (char_at first 0)) as [a0|] eqn:A0; [|discriminate].
  destruct (slot_of_char (char_at first 1)) as [a1|] eqn:A1; [|discriminate].
  destruct (slot_of_char (char_at first 2)) as [a2|] eqn:A2; [|discriminate].
  destruct (slot_of_char (char_at second 0)) as [b0|] eqn:B0;
    [|discriminate].
  destruct (slot_of_char (char_at second 1)) as [b1|] eqn:B1;
    [|discriminate].
  destruct (slot_of_char (char_at second 2)) as [b2|] eqn:B2;
    [|discriminate].
  destruct (slot_of_merge_char _ _ _ _ A0 B0) as (c0 & C0 & P0).
  destruct (slot_of_merge_char _ _ _ _ A1 B1) as (c1 & C1 & P1).
  destruct (slot_of_merge_char _ _ _ _ A2 B2) as (c2 & C2 & P2).
  destruct (v02_apply_join first a0 a1 a2 m A0 A1 A2)
    as (Ef & R0 & R1 & R2).
  destruct (v02_apply_join (merge_wildcard first second) c0 c1 c2 m
              C0 C1 C2) as (Em & _).
  destruct (v02_apply_join second b0 b1 b2
              (V02.apply_wildcard_mode first m) B0 B1 B2) as (Es & _).
  rewrite Es, Em, Ef.
  assert (Hsmall : Z.land (join (pick a0 (Z.land m 511 / 64))
                             (pick a1 ((Z.land m 511 / 8) mod 8))
                             (pick a2 (Z.land m 511 mod 8))) 511
                   = join (pick a0 (Z.land m 511 / 64))
                       (pick a1 ((Z.land m 511 / 8) mod 8))
                       (pick a2 (Z.land m 511 mod 8))).
  { change 511 with (Z.ones 9) at 4. rewrite Z.land_ones by lia.
    apply Z.mod_small. unfold join. lia. }
  rewrite Hsmall.
  destruct (join_groups _ _ _ R0 R1 R2) as (-> & -> & ->).
  now rewrite P0, P1, P2.
Qed.

(** ** Version 0.1 *)

Section Version01.

Context {world : Type} (OS : posix world).

Implicit Types st : V01.state world.

(** X20. In version 0.1, [-s] wins over [-S] in both orders. *)
Theorem v01_quiet_wins_over_silent (a b : string)
    (rest : list (ascii * string)) (l : V01.locals) st :
  V01.getopt_loop (("s"%char, a) :: ("S"%char, b) :: rest) l st
  = V01.getopt_loop rest l (V01.set_flags true false (V01.verbose st) st)
  /\ V01.getopt_loop (("S"%char, b) :: ("s"%char, a) :: rest) l st
     = V01.getopt_loop rest l (V01.set_flags true false (V01.verbose st) st).
Proof.
  split.
  - reflexivity.
  - cbn [V01.getopt_loop Ascii.eqb Bool.eqb orb].
    destruct (V01.suppress_output st); reflexivity.
Qed.

Lemma link_is_no_file_no_directory (m : Z) :
  S_ISLNK m = true -> S_ISDIR m = false /\ S_ISREG m = false.
Proof.
  unfold S_ISLNK, S_ISDIR, S_ISREG. intros H.
  apply Z.eqb_eq in H. rewrite H. split; reflexivity.
Qed.

(** X21. Version 0.1 leaves a symbolic link entry alone, without a word. *)
Theorem v01_ignores_symbolic_links (path : string) (mode : Z)
    (cf cd : bool) st (m : Z)
    (Hlstat : lstat OS (V01.fs st) path = Ok m)
    (Hlink : S_ISLNK m = true) :
  V01.change_permissions OS path mode cf cd st = st.
Proof.
  destruct (link_is_no_file_no_directory m Hlink) as (Hd & Hf).
  unfold V01.change_permissions. rewrite Hlstat, Hd, Hf. cbn [andb].
  destruct (_ =? _); [|reflexivity].
  now destruct (V01.not_suppressed st).
Qed.

(** X22. In version 0.1 a [chmod] that fails on a directory leaves no
    diagnostic, whatever the output flags: the state only gains the record
    of the call and the [errno]. *)
Theorem v01_failed_directory_chmod_is_silent (path : string) (mode : Z)
    (cf : bool) st (m e : Z)
    (Hlstat : lstat OS (V01.fs st) path = Ok m)
    (Hdir : S_ISDIR m = true)
    (Hdiff : V01.apply_wildcard_mode (V01.wildcard_mode st) (Z.land m 511)
             <> Z.land m 511)
    (Hfail : chmod OS (V01.fs st) path
               (V01.apply_wildcard_mode (V01.wildcard_mode st)
                  (Z.land m 511)) = Fail e) :
  V01.change_permissions OS path mode cf true st
  = V01.emit
      (Chmod path
         (V01.apply_wildcard_mode (V01.wildcard_mode st) (Z.land m 511))
         false)
      (V01.set_errno e st).
Proof.
  unfold V01.change_permissions, V01.do_chmod.
  rewrite Hlstat, Hdir, Hfail. cbn [andb].
  assert (Hne : (Z.land m 511
                 =? V01.apply_wildcard_mode (V01.wildcard_mode st)
                      (Z.land m 511)) = false)
    by (apply Z.eqb_neq; congruence).
  now rewrite Hne.
Qed.

(** X23. In version 0.1, with the output suppressed and [verbose] set, a
    [chmod] that succeeds on a directory is counted and reported as an
    error. *)
Theorem v01_successful_directory_chmod_reported_as_error (path : string)
    (mode : Z) (cf : bool) st (m : Z) (w' : world)
    (Hlstat : lstat OS (V01.fs st) path = Ok m)
    (Hdir : S_ISDIR m = true)
    (Hdiff : V01.apply_wildcard_mode (V01.wildcard_mode st) (Z.land m 511)
             <> Z.land m 511)
    (Hok : chmod OS (V01.fs st) path
             (V01.apply_wildcard_mode (V01.wildcard_mode st)
                (Z.land m 511)) = Ok w')
    (Hsuppressed : V01.not_suppressed st = false)
    (Hverbose : V01.verbose st = true) :
  let st' := V01.change_permissions OS path mode cf true st in
  V01.dirs_changed st' = int_incr (V01.dirs_changed st)
  /\ V01.fs st' = w'
  /\ V01.trace st'
     = V01.trace st
       ++ [Chmod path
             (V01.apply_wildcard_mode (V01.wildcard_mode st) (Z.land m 511))
             true;
           Stderr ("Error: Cannot change directory permissions " ++ path
                   ++ ": " ++ strerror OS (V01.errno st) ++ nl)%string].
Proof.
  cbv zeta. unfold V01.change_permissions, V01.do_chmod.
  rewrite Hlstat, Hdir, Hok. cbn [andb].
  assert (Hne : (Z.land m 511
                 =? V01.apply_wildcard_mode (V01.wildcard_mode st)
                      (Z.land m 511)) = false)
    by (apply Z.eqb_neq; congruence).
  rewrite Hne.
  unfold V01.not_suppressed in *. cbn.
  rewrite Hsuppressed, Hverbose. cbn.
  repeat split. now rewrite <- app_assoc.
Qed.

(** In version 0.1, with the output suppressed by either flag and
    [verbose] not set, the per-entry operation writes nothing, not even a
    diagnostic. *)
Lemma change_permissions01_suppressed (path : string) (mode : Z)
    (cf cd : bool) st
    (Hsuppressed : V01.not_suppressed st = false)
    (Hverbose : V01.verbose st = false) :
  outputs (V01.trace (V01.change_permissions OS path mode cf cd st))
  = outputs (V01.trace st).
Proof.
  assert (Hend : forall (ev : event) (s : V01.state world),
            is_chmod ev = true ->
            outputs (V01.trace (V01.emit ev s)) = outputs (V01.trace s)).
  { intros ev s Hev. cbn. rewrite outputs_app. cbn. rewrite Hev.
    apply app_nil_r. }
  unfold V01.change_permissions, V01.do_chmod.
  destruct (lstat OS (V01.fs st) path) as [m|e].
  - rewrite Hsuppressed.
    destruct (_ =? _); [reflexivity|].
    destruct (S_ISDIR m && cd).
    + destruct (chmod OS _ _ _); cbv beta iota zeta;
        change (V01.not_suppressed (V01.incr_dirs_changed ?s))
          with (V01.not_suppressed st);
        change (V01.verbose (V01.incr_dirs_changed ?s))
          with (V01.verbose st);
        rewrite ?Hsuppressed, ?Hverbose; cbn [orb V01.when];
        [ change (V01.trace (V01.incr_dirs_changed ?s)) with (V01.trace s)
        | ];
        (etransitivity; [apply Hend; reflexivity | reflexivity]).
    + destruct (S_ISREG m && cf); [|reflexivity].
      destruct (chmod OS _ _ _); cbv beta iota zeta;
        [ change (V01.not_suppressed (V01.incr_files_changed ?s))
            with (V01.not_suppressed st)
        | change (V01.not_suppressed (V01.emit ?ev ?s))
            with (V01.not_suppressed st);
          change (V01.verbose (V01.emit ?ev ?s)) with (V01.verbose st) ];
        rewrite ?Hsuppressed, ?Hverbose; cbn [orb V01.when];
        [ change (V01.trace (V01.incr_files_changed ?s)) with (V01.trace s)
        | ];
        (etransitivity; [apply Hend; reflexivity | reflexivity]).
  - change (V01.not_suppressed (V01.set_errno e st))
      with (V01.not_suppressed st).
    now rewrite Hsuppressed.
Qed.

(** X24. The validator of version 0.1 accepts the same grammar and stores
    the same characters. *)
Theorem v01_validator_accepts_grammar (optarg : string) st :
  fst (V01.validate_and_process_octal optarg st)
  = (if in_grammar optarg then 0 else -1)
  /\ V01.wildcard_mode (snd (V01.validate_and_process_octal optarg st))
     = if in_grammar optarg
       then strncpy (V01.wildcard_mode st) (normalized optarg) 3
       else V01.wildcard_mode st.
Proof.
  unfold V01.validate_and_process_octal, in_grammar, normalized.
  change accepted_char with (char_in "4567*").
  destruct optarg as [|c0 [|c1 [|c2 [|c3 [|c4 rest]]]]];
    try (split; reflexivity).
  - cbn [String.length Nat.eqb andb str_tail list_ascii_of_string strspn].
    destruct (char_in "4567*" c0), (char_in "4567*" c1),
      (char_in "4567*" c2); split; reflexivity.
  - cbn [String.length Nat.eqb andb str_tail list_ascii_of_string
         String.get].
    destruct (Ascii.eqb c0 "0"); [|split; reflexivity].
    cbn [String.length Nat.eqb andb str_tail strspn Nat.sub].
    destruct (char_in "4567*" c1), (char_in "4567*" c2),
      (char_in "4567*" c3); split; reflexivity.
Qed.

End Version01.

(** ** Witnesses on the small tree *)

Lemma walk_keeps_configuration_witness :
  V02.wildcard_mode toy_after_walk = ["6"; "4"; "4"; NUL]%char
  /\ V02.output_mode toy_after_walk = V02.OUTPUT_NORMAL
  /\ V02.symlink_mode toy_after_walk = V02.SYMLINK_SKIP.
Proof.
  exact (walk_keeps_configuration Toy.OS 5 "/r" true true false false
           V02.SYMLINK_SKIP (toy_state ["6"; "4"; "4"; NUL]%char)
           toy_after_walk eq_refl).
Defined.

Lemma walk_moves_one_symlink_counter_witness :
  V02.symlinks_followed toy_after_walk = 0
  /\ V02.symlink_errors toy_after_walk = 0.
Proof.
  destruct (walk_moves_one_symlink_counter Toy.OS 5 "/r" true true false
              false V02.SYMLINK_SKIP (toy_state ["6"; "4"; "4"; NUL]%char)
              toy_after_walk eq_refl) as (_ & Hf & He).
  split; [apply Hf | apply He]; discriminate.
Defined.

Lemma walk_counts_requested_kinds_only_witness :
  V02.dirs_changed toy_after_walk = 0.
Proof.
  exact (proj2 (walk_counts_requested_kinds_only Toy.OS 5 "/r" true true
                  false false V02.SYMLINK_SKIP
                  (toy_state ["6"; "4"; "4"; NUL]%char) toy_after_walk
                  eq_refl) eq_refl).
Defined.

Lemma silent_walk_writes_nothing_witness :
  let st := V02.set_output_mode V02.OUTPUT_SILENT
              (toy_state ["6"; "4"; "4"; NUL]%char) in
  outputs (V02.trace (toy_walk st)) = [].
Proof.
  intros st.
  apply (silent_walk_writes_nothing Toy.OS 5 "/r" true true false false
           V02.SYMLINK_SKIP st (toy_walk st)).
  - reflexivity.
  - vm_compute. reflexivity.
Defined.

Lemma quiet_walk_keeps_stdout_witness :
  let st := V02.set_output_mode V02.OUTPUT_QUIET
              (toy_state ["6"; "4"; "4"; NUL]%char) in
  stdouts (V02.trace (toy_walk st)) = []
  /\ diagnostics (V02.trace (toy_walk st)) <> [].
Proof.
  intros st. split.
  - apply (quiet_walk_keeps_stdout Toy.OS 5 "/r" true true false false
             V02.SYMLINK_SKIP st (toy_walk st)).
    + reflexivity.
    + vm_compute. reflexivity.
  - vm_compute. discriminate.
Defined.

Lemma last_flag_decides_witness :
  exists l' st',
    V02.getopt_loop
      [("v"%char, ""); ("s"%char, ""); ("k"%char, ""); ("L"%char, "");
       ("p"%char, "644")]
      V02.initial_locals (V02.initial_state Toy.plain) = inr (l', st')
    /\ V02.output_mode st' = V02.OUTPUT_QUIET
    /\ V02.symlink_mode st' = V02.SYMLINK_FOLLOW.
Proof.
  eexists. eexists. split; [reflexivity|].
  exact (last_flag_decides
           [("v"%char, ""); ("s"%char, ""); ("k"%char, ""); ("L"%char, "");
            ("p"%char, "644")]
           V02.initial_locals _ (V02.initial_state Toy.plain) _ eq_refl).
Defined.

Lemma run_chmods_nine_bit_witness :
  chmod_modes_nine_bit (V02.trace toy_after_run)
  /\ chmods (V02.trace toy_after_run)
     = [Chmod "/r/sub/b.txt" 420 true; Chmod "/r/locked.txt" 420 false].
Proof.
  split; [|reflexivity].
  exact (run_chmods_nine_bit Toy.OS 5 [("p"%char, "644")] ["/r"] Toy.tree
           EXIT_SUCCESS toy_after_run eq_refl).
Defined.

Lemma failed_run_touches_nothing_witness :
  exists st',
    V02.main Toy.OS 5 [("d"%char, "")] ["/r"] (V02.initial_state Toy.tree)
    = Some (EXIT_FAILURE, st')
    /\ V02.fs st' = Toy.tree
    /\ counters st' = (0, 0, 0, 0, 0)
    /\ chmods (V02.trace st') = [].
Proof.
  eexists. split; [reflexivity|].
  exact (failed_run_touches_nothing Toy.OS 5 [("d"%char, "")] ["/r"]
           (V02.initial_state Toy.tree) _ eq_refl).
Defined.

Lemma run_counts_successful_chmods_witness :
  V02.files_changed toy_after_run + V02.dirs_changed toy_after_run = 1.
Proof.
  apply (run_counts_successful_chmods Toy.OS 5 [("p"%char, "644")] ["/r"]
           Toy.tree EXIT_SUCCESS toy_after_run).
  - reflexivity.
  - vm_compute. reflexivity.
Defined.

Lemma inaccessible_entry_is_only_reported_witness :
  let st := toy_state ["6"; "4"; "4"; NUL]%char in
  let st' := V02.change_permissions Toy.OS "/r/missing" true true
               V02.SYMLINK_SKIP st in
  counters st' = counters st
  /\ V02.fs st' = V02.fs st
  /\ exists text, V02.trace st' = V02.trace st ++ [Stderr text].
Proof.
  exact (inaccessible_entry_is_only_reported Toy.OS "/r/missing" true true
           V02.SYMLINK_SKIP (toy_state ["6"; "4"; "4"; NUL]%char) eq_refl).
Defined.

Lemma unrequested_entry_is_invisible_witness :
  let st := toy_state ["7"; "5"; "5"; NUL]%char in
  V02.change_permissions Toy.OS "/r/a.txt" false true V02.SYMLINK_SKIP st
  = st.
Proof.
  apply (unrequested_entry_is_invisible Toy.OS "/r/a.txt" false true
           V02.SYMLINK_SKIP (toy_state ["7"; "5"; "5"; NUL]%char) 33188).
  - reflexivity.
  - reflexivity.
  - reflexivity.
  - discriminate.
Defined.

Lemma flat_walk_is_a_fold_witness :
  let st := toy_state ["6"; "4"; "4"; NUL]%char in
  V02.process_directory Toy.OS 1 "/r/sub" true true false false
    V02.SYMLINK_SKIP st
  = Some (V02.change_permissions Toy.OS "/r/sub/b.txt" true false
            V02.SYMLINK_SKIP st).
Proof.
  exact (flat_walk_is_a_fold Toy.OS 0 "/r/sub" true true false false
           V02.SYMLINK_SKIP
           [mkDirent "." DT_DIR; mkDirent ".." DT_DIR;
            mkDirent "b.txt" DT_REG]
           (toy_state ["6"; "4"; "4"; NUL]%char) eq_refl eq_refl).
Defined.

Lemma unreadable_directory_exits_with_success_witness :
  exists st',
    V02.main Toy.OS 1 [("p"%char, "644")] ["/nowhere"]
      (V02.initial_state Toy.tree) = Some (EXIT_SUCCESS, st')
    /\ V02.fs st' = Toy.tree
    /\ diagnostics (V02.trace st')
       = [Stderr ("Error: Cannot open directory /nowhere: "
                  ++ "No such file or directory" ++ nl)%string].
Proof.
  destruct (unreadable_directory_exits_with_success Toy.OS 0
              [("p"%char, "644")] "/nowhere" []
              (V02.initial_state Toy.tree)
              (toy_state ["6"; "4"; "4"; NUL]%char)
              (V02.mkLocals false false true false true) Toy.ENOENT
              eq_refl eq_refl eq_refl eq_refl)
    as (st' & Hmain & Hfs & _ & _ & Hdiag).
  exists st'. split; [exact Hmain|]. split; [exact Hfs|]. exact Hdiag.
Defined.

Lemma rejected_argument_changes_nothing_witness :
  let st := toy_state ["6"; "4"; "4"; NUL]%char in
  let st' := snd (V02.validate_and_process_octal "0123" st) in
  V02.wildcard_mode st' = ["6"; "4"; "4"; NUL]%char
  /\ diagnostics (V02.trace st')
     = [Stderr ("Error: Invalid octal value: 123"
                ++ " (web search: unix octal permissions)" ++ nl ++ nl)%string].
Proof.
  intros st st'.
  destruct (rejected_argument_changes_nothing "0123" st eq_refl)
    as (Hc & _ & _ & Ht).
  split.
  - exact (f_equal (fun c => fst (fst c)) Hc).
  - fold st' in Ht. rewrite Ht. reflexivity.
Defined.

Lemma accepted_argument_round_trip_witness :
  let st' := snd (V02.validate_and_process_octal "07*4"
                    (V02.initial_state Toy.tree)) in
  exists evs,
    V02.trace (V02.print_wildcard_mode st') = evs
    /\ stdout_text evs = "7*4".
Proof.
  destruct (accepted_argument_round_trip "07*4"
              (V02.initial_state Toy.tree) eq_refl)
    as (_ & evs & Ht & Htext).
  exists evs. split; [exact Ht | exact Htext].
Defined.

Lemma permissions_option_is_required_witness :
  exists st',
    V02.main Toy.OS 5 [("d"%char, ""); ("f"%char, ""); ("v"%char, "")]
      ["/r"] (V02.initial_state Toy.tree) = Some (EXIT_FAILURE, st').
Proof.
  exact (permissions_option_is_required Toy.OS 5
           [("d"%char, ""); ("f"%char, ""); ("v"%char, "")] ["/r"]
           (V02.initial_state Toy.tree) eq_refl).
Defined.

(** 6*4 and then *5* on mode 0777 is 654 on it: 0654. *)
Lemma apply_wildcard_mode_twice_is_merge_witness :
  V02.apply_wildcard_mode ["*"; "5"; "*"; NUL]%char
    (V02.apply_wildcard_mode ["6"; "*"; "4"; NUL]%char 511)
  = V02.apply_wildcard_mode ["6"; "5"; "4"; NUL]%char 511.
Proof.
  exact (apply_wildcard_mode_twice_is_merge ["6"; "*"; "4"; NUL]%char
           ["*"; "5"; "*"; NUL]%char (mkModeSpec (Fixed 6) Keep (Fixed 4))
           (mkModeSpec Keep (Fixed 5) Keep) 511 eq_refl eq_refl).
Defined.

Lemma v01_ignores_symbolic_links_witness :
  let st := toy_state01 ["7"; "5"; "5"; NUL]%char in
  V01.change_permissions Toy.OS "/r/ln" 0 true true st = st.
Proof.
  exact (v01_ignores_symbolic_links Toy.OS "/r/ln" 0 true true
           (toy_state01 ["7"; "5"; "5"; NUL]%char) 41471 eq_refl eq_refl).
Defined.

Lemma v01_failed_directory_chmod_is_silent_witness :
  let st := toy_state01 ["7"; "5"; "5"; NUL]%char in
  diagnostics (V01.trace (V01.change_permissions Toy.OS "/r/vault" 0 false
                            true st)) = [].
Proof.
  intros st.
  rewrite (v01_failed_directory_chmod_is_silent Toy.OS "/r/vault" 0 false
             st 16832 Toy.EPERM eq_refl eq_refl
             ltac:(vm_compute; intros H; discriminate H) eq_refl).
  reflexivity.
Defined.

Lemma v01_successful_directory_chmod_reported_as_error_witness :
  let st := V01.set_flags true false true
              (toy_state01 ["7"; "7"; "7"; NUL]%char) in
  let st' := V01.change_permissions Toy.OS "/r/sub" 0 false true st in
  V01.dirs_changed st' = 1
  /\ diagnostics (V01.trace st')
     = [Stderr ("Error: Cannot change directory permissions /r/sub: "
                ++ "Unknown error" ++ nl)%string].
Proof.
  intros st st'.
  destruct (v01_successful_directory_chmod_reported_as_error Toy.OS "/r/sub"
              0 false st 16877 _ eq_refl eq_refl
              ltac:(vm_compute; intros H; discriminate H) eq_refl eq_refl
              eq_refl) as (Hd & _ & Ht).
  split; [exact Hd|]. fold st' in Ht. rewrite Ht. reflexivity.
Defined.


(** ** The walk of version 0.1 with its output suppressed *)

Section Walk01.

Context {world : Type} (OS : posix world).

Implicit Types st : V01.state world.

Lemma flags01_print_change (tag path : string) (o n : Z) st :
  flags01 (V01.print_change tag path o n st) = flags01 st.
Proof.
  unfold V01.print_change, V01.print_wildcard_mode, V01.print_permissions.
  cbn [fold_left].
  repeat match goal with
         | |- context [if ?b then _ else _] => destruct b
         end; reflexivity.
Qed.

Lemma flags01_when (b : bool) (f : V01.state world -> V01.state world) st :
  (forall s, flags01 (f s) = flags01 s) ->
  flags01 (V01.when b f st) = flags01 st.
Proof. intros H. destruct b; [apply H | reflexivity]. Qed.

Lemma change_permissions01_flags (path : string) (mode : Z) (cf cd : bool)
    st :
  flags01 (V01.change_permissions OS path mode cf cd st) = flags01 st.
Proof.
  unfold V01.change_permissions, V01.do_chmod.
  destruct (lstat OS (V01.fs st) path) as [m|e].
  - destruct (_ =? _).
    + destruct (V01.not_suppressed st); [|reflexivity].
      destruct (S_ISDIR m); [now apply flags01_when|].
      destruct (S_ISREG m); [now apply flags01_when | reflexivity].
    + destruct (S_ISDIR m && cd).
      * destruct (chmod OS _ _ _); [|reflexivity]. cbv beta iota zeta.
        destruct (V01.not_suppressed _).
        -- now rewrite flags01_print_change.
        -- now rewrite flags01_when.
      * destruct (S_ISREG m && cf); [|reflexivity].
        destruct (chmod OS _ _ _); cbv beta iota zeta.
        -- rewrite flags01_when; [reflexivity|].
           intros s. apply flags01_print_change.
        -- now rewrite flags01_when.
  - now rewrite flags01_when.
Qed.

Lemma hushed01_flags (a b : V01.state world) :
  flags01 b = flags01 a -> hushed01 a -> hushed01 b.
Proof.
  unfold flags01, hushed01, V01.not_suppressed.
  intros [= -> -> ->]. auto.
Qed.

Lemma change_permissions01_hushed (path : string) (mode : Z) (cf cd : bool)
    st :
  hushed01 st ->
  hushed01 (V01.change_permissions OS path mode cf cd st)
  /\ outputs (V01.trace (V01.change_permissions OS path mode cf cd st))
     = outputs (V01.trace st).
Proof.
  intros H. split.
  - eapply hushed01_flags; [apply change_permissions01_flags | exact H].
  - destruct H as (Hs & Hv).
    now apply change_permissions01_suppressed.
Qed.

Lemma readdir_loop01_hushed
    (descend : string -> V01.state world -> option (V01.state world))
    (dir_path : string) (mode : Z) (recursive cf cd : bool) :
  (forall path s s',
     descend path s = Some s' -> hushed01 s ->
     hushed01 s' /\ outputs (V01.trace s') = outputs (V01.trace s)) ->
  forall entries st st',
    V01.readdir_loop OS descend dir_path mode recursive cf cd entries st
    = Some st' ->
    hushed01 st ->
    hushed01 st' /\ outputs (V01.trace st') = outputs (V01.trace st).
Proof.
  intros Hdescend entries.
  induction entries as [|entry rest IH]; intros st st' Hloop Hst;
    cbn [V01.readdir_loop] in Hloop.
  - injection Hloop as <-. auto.
  - destruct (_ || _) in Hloop; [now apply IH|].
    set (path := snprintf 1024 _) in Hloop.
    destruct (change_permissions01_hushed path mode cf cd st Hst)
      as (H1 & E1).
    destruct (recursive && is_DT_DIR (d_type entry)).
    + destruct (descend path _) as [st1|] eqn:Hd; [|discriminate].
      destruct (Hdescend _ _ _ Hd H1) as (H2 & E2).
      destruct (IH _ _ Hloop H2) as (H3 & E3).
      split; [exact H3 | now rewrite E3, E2].
    + destruct (IH _ _ Hloop H1) as (H3 & E3).
      split; [exact H3 | now rewrite E3].
Qed.

Lemma process_directory01_hushed (fuel : nat) :
  forall (dir_path : string) (mode : Z)
         (recursive cf cd include_dir : bool) st st',
    V01.process_directory OS fuel dir_path mode recursive cf cd include_dir
      st = Some st' ->
    hushed01 st ->
    hushed01 st' /\ outputs (V01.trace st') = outputs (V01.trace st).
Proof.
  induction fuel as [|fuel IH]; intros dir_path mode recursive cf cd
    include_dir st st' Hwalk Hst; cbn [V01.process_directory] in Hwalk.
  - discriminate.
  - set (st0 := V01.when _ _ st) in Hwalk.
    assert (H0 : hushed01 st0
                 /\ outputs (V01.trace st0) = outputs (V01.trace st)).
    { subst st0. destruct (cd && include_dir); cbn [V01.when]; [|auto].
      now apply change_permissions01_hushed. }
    destruct H0 as (H0 & E0).
    destruct (opendir OS (V01.fs st0) dir_path) as [entries|e].
    + destruct (readdir_loop01_hushed _ dir_path mode recursive cf cd
                  (fun path s s' Hd => IH _ _ _ _ _ _ _ _ Hd)
                  entries st0 st' Hwalk H0) as (H1 & E1).
      split; [exact H1 | now rewrite E1].
    + injection Hwalk as <-.
      change (V01.not_suppressed (V01.set_errno e st0))
        with (V01.not_suppressed st0).
      rewrite (proj1 H0). cbn [V01.when].
      split; [exact H0 | exact E0].
Qed.

(** X25. In version 0.1, with the output suppressed by either flag and
    [verbose] not set, a whole walk writes nothing on either stream, not
    even the diagnostics of the entries it could not change. *)
Theorem v01_suppressed_walk_writes_nothing (fuel : nat) (dir_path : string)
    (mode : Z) (recursive cf cd include_dir : bool) st st'
    (Hsuppressed : V01.not_suppressed st = false)
    (Hverbose : V01.verbose st = false)
    (Hwalk : V01.process_directory OS fuel dir_path mode recursive cf cd
               include_dir st = Some st') :
  outputs (V01.trace st') = outputs (V01.trace st).
Proof.
  exact (proj2 (process_directory01_hushed fuel _ _ _ _ _ _ _ _ Hwalk
                  (conj Hsuppressed Hverbose))).
Qed.

End Walk01.

Lemma v01_suppressed_walk_writes_nothing_witness :
  let st := V01.set_flags true false false
              (toy_state01 ["6"; "4"; "4"; NUL]%char) in
  exists st',
    V01.process_directory Toy.OS 5 "/r" 0 true true false false st
    = Some st'
    /\ outputs (V01.trace st') = []
    /\ chmods (V01.trace st')
       = [Chmod "/r/sub/b.txt" 420 true; Chmod "/r/locked.txt" 420 false].
Proof.
  intros st. eexists. split; [vm_compute; reflexivity|].
  split; [|reflexivity].
  eapply (v01_suppressed_walk_writes_nothing Toy.OS 5 "/r" 0 true true false
            false st).
  - reflexivity.
  - reflexivity.
  - vm_compute. reflexivity.
Defined.
